(** * VRUI: layout containers and the page controller

    A shallow embedding of the vr-ui sources
      - [src/layout/abstract-layout.js]  (class AbstractLayout)
      - [src/layout/vertical-layout.js]  (class VerticalLayout)
      - the controller class VRUI (constructor, update, add, addPage,
        nextPage, prevPage, enableMouse, disableMouse, addInput,
        setPressed, _updateMouse, _updateVR, _addWithExpansion, _visit)
    followed by the properties of that code.

    Conventions of the embedding.
      - A JavaScript number is an element of a type [num] carrying the
        operations of the class [Number].  The instance [float_Number] is
        IEEE-754 binary64, the arithmetic the engine really performs; the
        instance [Q_Number] is exact rational arithmetic.
      - An object of the widget tree is a value of type [Element]; a
        reference to such an object is the place where the object sits: the
        index of its page in [pages] and the path of child indices from the
        page root.  Distinct places hold distinct objects (every page and
        every child is owned by exactly one parent).
      - A method that mutates [this] is a function returning the new
        [this]; a method that may throw returns a [Completion] next to the
        state reached when it stopped, because a JavaScript exception does
        not roll back the mutations made before it.
      - [console.warn] appends to a list of messages, user callbacks append
        to a list of events. *)

From Stdlib Require Import String.
From Stdlib Require Import List ZArith QArith Lia Bool Floats Permutation Arith DecimalString.
From Equations Require Import Equations.
Import ListNotations.

Set Implicit Arguments.
Set Warnings "-register-all,-inexact-float".
Local Close Scope Q_scope.
Local Open Scope string_scope.
Local Open Scope list_scope.
Local Open Scope nat_scope.

(** ** JavaScript numbers *)

(** The operations the sources apply to numbers: the literals [0.0], [1.0]
    and [0.5], [+], binary [-], [*], unary [-], [>=], and ToBoolean (as in
    [dim.width || data.width]: false on [0] and [NaN]). *)
Class Number (num : Type) : Type := {
  zero : num;
  one : num;
  half : num;
  add : num -> num -> num;
  sub : num -> num -> num;
  mul : num -> num -> num;
  neg : num -> num;
  geb : num -> num -> bool;
  truthy : num -> bool
}.

(** IEEE-754 binary64: what a JavaScript engine computes. *)
#[global] Instance float_Number : Number float := {
  zero := 0%float;
  one := 1%float;
  half := 0.5%float;
  add := PrimFloat.add;
  sub := PrimFloat.sub;
  mul := PrimFloat.mul;
  neg := PrimFloat.opp;
  geb := fun x y => PrimFloat.leb y x;
  truthy := fun x => negb (PrimFloat.eqb x 0%float || PrimFloat.is_nan x)
}.

(** Exact rational arithmetic: numbers without rounding. *)
#[global] Instance Q_Number : Number Q := {
  zero := 0%Q;
  one := 1%Q;
  half := (1 # 2)%Q;
  add := Qplus;
  sub := Qminus;
  mul := Qmult;
  neg := Qopp;
  geb := fun x y => Qle_bool y x;
  truthy := fun x => negb (Qeq_bool x 0%Q)
}.

(** [x <= y], written with the [>=] of the class. *)
Definition leb {num : Type} {N : Number num} (x y : num) : bool := geb y x.



(** ** Data model *)

(** [style.align] and [style.position] are strings in the source; the
    [switch] statements of [VerticalLayout.refresh] distinguish the values
    below, every other value falls through all the cases. *)
Inductive Align : Type := AlignTop | AlignCenter | AlignBottom | AlignOther.

Inductive Position : Type := PositionLeft | PositionRight | PositionCenter.

(** The four sides of a margin or of a padding. *)
Record Box (num : Type) : Type := mkBox {
  top : num;
  bottom : num;
  b_left : num;
  b_right : num
}.

(** The declared style of an element (the fields the sources read). *)
Record Style (num : Type) : Type := mkStyle {
  s_width : num;
  s_height : num;
  align : Align;
  position : Position
}.

(** [_dimensions]: the computed dimensions of an element. *)
Record Dimensions (num : Type) : Type := mkDimensions {
  width : num;
  height : num;
  halfW : num;
  margin : Box num;
  padding : Box num
}.

(** A THREE.Group, as far as the sources use it: an identity, the group it
    is attached to, the groups attached to it, its [position] and its
    [visible] flag. *)
Record Group (num : Type) : Type := mkGroup {
  gid : nat;
  gparent : option nat;
  gchildren : list nat;
  position_x : num;
  position_y : num;
  visible : bool
}.

(** The classes of the objects of a widget tree.  [VerticalLayout] is the
    layout of the sources, it extends AbstractLayout; [ElementView] stands
    for the leaf widgets, which extend Element only. *)
Inductive Kind : Type := VerticalLayout | ElementView.

(** An object of class Element.  [data_id] is [data.id] ([None] when it is
    undefined); [_background] names the mesh tested by the hover test;
    [_onHoverEnter] and [_onHoverExit] name the user callbacks, when set;
    [parent] is [None] for [null].  Every element carries a [data]
    object.  The field [_elements] exists on layouts only: on an
    [ElementView] it is undefined and its content here is never read by
    the methods. *)
Inductive Element (num : Type) : Type := mkElement {
  type : Kind;
  data_id : option string;
  style : Style num;
  _dimensions : Dimensions num;
  _parentDimensions : option (num * num);
  parent : option nat;
  group : Group num;
  hover : bool;
  _background : nat;
  _onHoverEnter : option nat;
  _onHoverExit : option nat;
  _elements : list (Element num)
}.

(** JavaScript values passed where an element is expected. *)
Inductive Value (num : Type) : Type :=
| VUndefined : Value num
| VNull : Value num
| VElement : Element num -> Value num
| VArray : list (Value num) -> Value num
| VOther : Value num.

Arguments VUndefined {num}.
Arguments VNull {num}.
Arguments VOther {num}.

(** Thrown values: [Error(msg)] and [new TypeError(msg)]. *)
Inductive Exception : Type :=
| Error (msg : string)
| TypeError (msg : string).

(** How a call ends: it returns a value or it throws. *)
Inductive Completion (A : Type) : Type :=
| Normal (a : A)
| Throw (e : Exception).

Arguments Throw {A} e.

(** Calls of user callbacks, in the order they happen. *)
Inductive Event : Type :=
| HoverEnter (callback : nat)
| HoverExit (callback : nat).

(** A ray is known by the meshes it intersects. *)
Definition Ray : Type := list nat.

Definition intersectObject (raycaster : Ray) (object : nat) : bool :=
  existsb (Nat.eqb object) raycaster.

(** The events of calling an optional callback. *)
Definition fire (mk : nat -> Event) (callback : option nat) : list Event :=
  match callback with
  | Some c => [mk c]
  | None => []
  end.

(** The running offsets of [VerticalLayout.refresh]:
    [{ top, bottom, x }]. *)
Record Offset (num : Type) : Type := mkOffset {
  o_top : num;
  o_bottom : num;
  o_x : num
}.

(** ** Field updates *)

Section Updates.
Context {num : Type}.

Definition set_elements (elts : list (Element num)) (e : Element num) : Element num :=
  mkElement (type e) (data_id e) (style e) (_dimensions e) (_parentDimensions e)
    (parent e) (group e) (hover e) (_background e) (_onHoverEnter e)
    (_onHoverExit e) elts.

Definition set_group (g : Group num) (e : Element num) : Element num :=
  mkElement (type e) (data_id e) (style e) (_dimensions e) (_parentDimensions e)
    (parent e) g (hover e) (_background e) (_onHoverEnter e)
    (_onHoverExit e) (_elements e).

Definition set_hover (h : bool) (e : Element num) : Element num :=
  mkElement (type e) (data_id e) (style e) (_dimensions e) (_parentDimensions e)
    (parent e) (group e) h (_background e) (_onHoverEnter e)
    (_onHoverExit e) (_elements e).

Definition set_dimensions (d : Dimensions num) (e : Element num) : Element num :=
  mkElement (type e) (data_id e) (style e) d (_parentDimensions e)
    (parent e) (group e) (hover e) (_background e) (_onHoverEnter e)
    (_onHoverExit e) (_elements e).

Definition set_parentDimensions (d : option (num * num)) (e : Element num) : Element num :=
  mkElement (type e) (data_id e) (style e) (_dimensions e) d
    (parent e) (group e) (hover e) (_background e) (_onHoverEnter e)
    (_onHoverExit e) (_elements e).

Definition set_parent (p : option nat) (e : Element num) : Element num :=
  mkElement (type e) (data_id e) (style e) (_dimensions e) (_parentDimensions e)
    p (group e) (hover e) (_background e) (_onHoverEnter e)
    (_onHoverExit e) (_elements e).

Definition set_position_x (x : num) (g : Group num) : Group num :=
  mkGroup (gid g) (gparent g) (gchildren g) x (position_y g) (visible g).

Definition set_position_y (y : num) (g : Group num) : Group num :=
  mkGroup (gid g) (gparent g) (gchildren g) (position_x g) y (visible g).

Definition set_visible (v : bool) (g : Group num) : Group num :=
  mkGroup (gid g) (gparent g) (gchildren g) (position_x g) (position_y g) v.

Definition set_gparent (p : option nat) (g : Group num) : Group num :=
  mkGroup (gid g) p (gchildren g) (position_x g) (position_y g) (visible g).

Definition set_gchildren (c : list nat) (g : Group num) : Group num :=
  mkGroup (gid g) (gparent g) c (position_x g) (position_y g) (visible g).

(** [element instanceof AbstractLayout]. *)
Definition instanceof_AbstractLayout (e : Element num) : bool :=
  match type e with
  | VerticalLayout => true
  | ElementView => false
  end.

(** THREE's [parent.add( child )], on the two groups involved: the child
    is attached to the parent. *)
Definition group_add (parent_group child_group : Group num) : Group num * Group num :=
  (set_gchildren (gchildren parent_group ++ [gid child_group]) parent_group,
   set_gparent (Some (gid parent_group)) child_group).

(** Modelled from the spec: [Element.setVisible] is not in src; the spec
    gives every node a [visible] flag toggled by [setVisible(bool)].  The
    flag lives on the element's group. *)
Definition setVisible (v : bool) (e : Element num) : Element num :=
  set_group (set_visible v (group e)) e.

(** Modelled from the spec: [clone] of a layout is not in src; the spec
    says a new page is the template cloned, with the same shape.  A clone
    is a fresh object equal to the original, so on values it is the
    identity: the independence of the copy is the independence of values. *)
Definition clone (e : Element num) : Element num := e.

End Updates.

(** ** AbstractLayout *)

Section AbstractLayout.
Context {num : Type}.

(** [_addItem( element )]: throws on a value that is not an Element;
    otherwise pushes it on [_elements] and attaches its group to the
    group of the layout. *)
Definition _addItem (element : Value num) (this : Element num)
  : Completion unit * Element num :=
  match element with
  | VElement elt =>
      let '(g, eg) := group_add (group this) (group elt) in
      (Normal tt,
       set_group g (set_elements (_elements this ++ [set_group eg elt]) this))
  | _ =>
      (Throw (Error "AbstractLayout: addView(): provided element is not an instance of Element"),
       this)
  end.

(** [for ( let elt of elts ) this._addItem( elt )]: the loop stops at the
    first exception, the items added before it stay. *)
Fixpoint _addItems (elts : list (Value num)) (this : Element num)
  : Completion unit * Element num :=
  match elts with
  | [] => (Normal tt, this)
  | elt :: rest =>
      match _addItem elt this with
      | (Normal _, this') => _addItems rest this'
      | (Throw e, this') => (Throw e, this')
      end
  end.

(** [add( element )], applied to the list [arguments] of its actual
    arguments; [element] is the first of them, undefined when there is
    none. *)
Definition AbstractLayout_add (arguments : list (Value num)) (this : Element num)
  : Completion unit * Element num :=
  let element := nth 0 arguments VUndefined in
  match element with
  | VUndefined | VNull =>
      (Throw (Error "AbstractLayout: add(): provided argument is null or undefined."),
       this)
  | _ =>
      if (0 <? length arguments)%nat then _addItems arguments this
      else
        match element with
        | VArray elts => _addItems elts this
        | _ => _addItem element this
        end
  end.

(** [forceExit()]: every child that has the method (a layout) is told to
    force the exit of its own children, then its [hover] is cleared. *)
Fixpoint forceExit (this : Element num) : Element num :=
  match this with
  | mkElement ty id st dims pd par g h bg enter exit elts =>
      mkElement ty id st dims pd par g h bg enter exit
        (map (fun elt =>
                set_hover false
                  (match type elt with
                   | VerticalLayout => forceExit elt
                   | ElementView => elt
                   end))
             elts)
  end.

(** [_onHoverExitWrapper]: the user's [_onHoverExit], when set, then
    [forceExit()]. *)
Definition _onHoverExitWrapper (this : Element num) : Element num * list Event :=
  (forceExit this, fire HoverExit (_onHoverExit this)).

(** Modelled from the spec: [Element._checkHover] is not in src.  The spec
    says the hover test is made against the given region with the ray; on
    a miss the hover-exit callback is fired and the answer is no hit; on a
    hit the answer is a hit.  The element's own [hover] flag follows the
    answer and the hover-enter callback is fired on a hit. *)
Definition _checkHover (raycaster : Ray) (object : nat)
    (onHoverEnter : Element num -> Element num * list Event)
    (onHoverExit : Element num -> Element num * list Event)
    (this : Element num) : bool * Element num * list Event :=
  if intersectObject raycaster object then
    let '(this', evs) := onHoverEnter this in
    (true, set_hover true this', evs)
  else
    let '(this', evs) := onHoverExit this in
    (false, set_hover false this', evs).

Section Children.
(** [elt._intersect( raycaster, state )] *)
Variable intersect_elt : Element num -> bool * Element num * list Event.

(** [for ( let elt of this._elements ) if ( elt._intersect( ... ) ) return true;]:
    the children after the calls and the events of the calls; the
    children after the first one that answers true are not visited. *)
Fixpoint intersect_elements (elts : list (Element num))
  : list (Element num) * list Event :=
  match elts with
  | [] => ([], [])
  | elt :: rest =>
      let '(b, elt', ev) := intersect_elt elt in
      if b then (elt' :: rest, ev)
      else
        let '(rest', ev') := intersect_elements rest in
        (elt' :: rest', ev ++ ev')
  end.

End Children.

(** Modelled from the spec: [_intersect] of a leaf widget (ElementView) is
    not in src.  The spec gives every node a hover test on its own region
    and optional hover callbacks: the leaf runs [_checkHover] on its
    background with its own callbacks and answers whether it is hit. *)
Definition ElementView_intersect (raycaster : Ray) (state : bool)
    (this : Element num) : bool * Element num * list Event :=
  _checkHover raycaster (_background this)
    (fun e => (e, fire HoverEnter (_onHoverEnter this)))
    (fun e => (e, fire HoverExit (_onHoverExit this)))
    this.

(** [_intersect( raycaster, state )], dispatched on the class of [this].
    On a layout it is the method of AbstractLayout: the hover test on the
    background with [_onHoverEnter] and [_onHoverExitWrapper]; on a miss
    the answer is false; on a hit the children are tried in order until
    one answers true, and the answer is true. *)
Fixpoint _intersect (raycaster : Ray) (state : bool) (this : Element num)
  : bool * Element num * list Event :=
  match this with
  | mkElement ty id st dims pd par g h bg enter exit elts =>
      match ty with
      | ElementView => ElementView_intersect raycaster state this
      | VerticalLayout =>
          let '(hit, this1, evs) :=
            _checkHover raycaster bg
              (fun e => (e, fire HoverEnter enter))
              _onHoverExitWrapper
              this in
          if negb hit then (false, this1, evs)
          else
            let '(elts', evs') :=
              intersect_elements (_intersect raycaster state) elts in
            (true, set_elements elts' this1, evs ++ evs')
      end
  end.

End AbstractLayout.

(** ** VerticalLayout *)

Section VerticalLayout.
Context {num : Type} {N : Number num}.

(** [Element.refresh] is not in src.  It is reached through
    [super.refresh( maxEltWidth, maxEltHeight )] on a layout and through
    [elt.refresh( ... )] on a view, and it leaves the computed dimensions
    in [_dimensions]: the dimensions it computes are a parameter. *)
Variable resolveDimensions :
  Element num -> option num -> option num -> Dimensions num.

(** The first [switch] of the loop body, on [elt.style.align]. *)
Definition place_align (dimensions : Dimensions num) (elt : Element num)
    (offset : Offset num) : Element num * Offset num * list string :=
  let eltDim := _dimensions elt in
  match align (style elt) with
  | AlignTop =>
      let top1 := add (o_top offset) (top (margin eltDim)) in
      (set_group (set_position_y (neg top1) (group elt)) elt,
       mkOffset (add top1 (add (height eltDim) (bottom (margin eltDim))))
                (o_bottom offset) (o_x offset),
       [])
  | AlignCenter =>
      (elt, offset,
       ["VerticalLayout.refresh(): 'center' is not supported yet with this layouts"])
  | AlignBottom =>
      let bottom1 := add (o_bottom offset) (bottom (margin eltDim)) in
      (set_group
         (set_position_y
            (add (sub bottom1 (height dimensions)) (height eltDim))
            (group elt)) elt,
       mkOffset (o_top offset)
                (add bottom1 (add (height eltDim) (top (margin eltDim))))
                (o_x offset),
       [])
  | AlignOther => (elt, offset, [])
  end.

(** The second [switch] of the loop body, on [elt.style.position]. *)
Definition place_position (maxWidthPerElt : num) (elt : Element num) : Element num :=
  let eltDim := _dimensions elt in
  match position (style elt) with
  | PositionRight =>
      set_group (set_position_x (sub maxWidthPerElt (width eltDim)) (group elt)) elt
  | PositionCenter =>
      set_group
        (set_position_x (sub (mul maxWidthPerElt half) (halfW eltDim)) (group elt))
        elt
  | PositionLeft => elt
  end.

Section Loop.
(** [elt.refresh( maxWidthPerElt, maxHeightPerElt )] *)
Variable refresh_elt : Element num -> Element num * list string.
Variable dimensions : Dimensions num.
Variable maxWidthPerElt : num.

(** [for ( let elt of this._elements ) { ... }] of [refresh]. *)
Fixpoint refresh_elements (elts : list (Element num)) (offset : Offset num)
  : list (Element num) * list string :=
  match elts with
  | [] => ([], [])
  | elt :: rest =>
      let '(elt1, w1) := refresh_elt elt in
      let '(elt2, offset', w2) := place_align dimensions elt1 offset in
      let elt3 := place_position maxWidthPerElt elt2 in
      let '(rest', w3) := refresh_elements rest offset' in
      (elt3 :: rest', w1 ++ w2 ++ w3)
  end.

End Loop.

(** [refresh( maxEltWidth, maxEltHeight )]: the refreshed element and the
    warnings printed on the way. *)
Fixpoint refresh (maxEltWidth maxEltHeight : option num) (this : Element num)
  {struct this} : Element num * list string :=
  match this with
  | mkElement ty id st dims pd par g h bg enter exit elts =>
      let dimensions := resolveDimensions this maxEltWidth maxEltHeight in
      match ty with
      | ElementView => (set_dimensions dimensions this, [])
      | VerticalLayout =>
          let padding := padding dimensions in
          let offset :=
            mkOffset (top padding) (bottom padding)
                     (sub (b_left padding) (b_right padding)) in
          let horizontalPad := add (b_right padding) (b_left padding) in
          let verticalPad := add (top padding) (bottom padding) in
          let maxWidthPerElt := sub (width dimensions) horizontalPad in
          let maxHeightPerElt := sub (height dimensions) verticalPad in
          let '(elts', warnings) :=
            refresh_elements
              (refresh (Some maxWidthPerElt) (Some maxHeightPerElt))
              dimensions maxWidthPerElt elts offset in
          (set_elements elts' (set_dimensions dimensions this), warnings)
      end
  end.

(** [isFull()] *)
Definition isFull (this : Element num) : bool :=
  let height :=
    fold_left (fun height elt => add height (s_height (style elt)))
              (_elements this) zero in
  geb height one.

End VerticalLayout.

(** ** The controller VRUI *)

(** The function [this._update] points to. *)
Inductive UpdateFn : Type := UpdateVR | UpdateMouse.

(** A THREE.Object3D used as pointer: [userData.vrui.pressed] ([None]
    when [userData.vrui] is not set) and, for [matrixWorld], the ray that
    starts at its position along its forward axis. *)
Record InputObject : Type := mkInputObject {
  userData_vrui_pressed : option bool;
  matrixWorld : Ray
}.

(** A camera given to [enableMouse]: whether its constructor is
    THREE.Camera itself, and the ray [setFromCamera] builds through the
    current pointer coordinates. *)
Record Camera : Type := mkCamera {
  constructor_is_Camera : bool;
  setFromCamera : Ray
}.

(** [this._mouse], and the listeners bound on [window].  The handlers
    themselves run between two calls of the controller and are not part
    of a method call. *)
Record Mouse : Type := mkMouse {
  m_enabled : bool;
  m_camera : option Camera;
  m_listeners : list string
}.

(** The [dimensions] argument of [addPage]: an object whose [width] and
    [height] may be undefined. *)
Record Dim (num : Type) : Type := mkDim {
  dim_width : option num;
  dim_height : option num
}.

(** The [data] argument of the constructor. *)
Record Data (num : Type) : Type := mkData {
  cfg_width : option num;
  cfg_height : option num;
  cfg_mode : option (option Z * Value num)
}.

(** An instance of VRUI.  [_pageId] is [None] while undefined or NaN.
    [currPage] refers to an object of [pages]: it is the index of that
    object in [pages], [None] while undefined.  [console] collects the
    messages of [console.warn], [events] the calls of user callbacks. *)
Record VRUI (num : Type) : Type := mkVRUI {
  enabled : bool;
  data_width : num;
  data_height : num;
  data_mode_type : Z;
  data_mode_template : Value num;
  inputObject : option InputObject;
  pages : list (Element num);
  pageGroup : Group num;
  _pageId : option Z;
  currPage : option nat;
  _raycaster : Ray;
  _mouse : Mouse;
  _state_pressed : bool;
  _forcePressed : bool;
  _update : UpdateFn;
  console : list string;
  events : list Event
}.

(** A reference to an object of a page: the page and the path of child
    indices from its root. *)
Record Ref : Type := mkRef {
  ref_page : nat;
  ref_path : list nat
}.

(** [VRUI.AUTOMATIC_ADDING = 0x0] *)
Definition AUTOMATIC_ADDING : Z := 0.

Section Controller.
Context {num : Type} {N : Number num}.

Definition set_pages (v : list (Element num)) (c : VRUI num) : VRUI num :=
  mkVRUI (enabled c) (data_width c) (data_height c) (data_mode_type c)
    (data_mode_template c) (inputObject c) v (pageGroup c) (_pageId c)
    (currPage c) (_raycaster c) (_mouse c) (_state_pressed c) (_forcePressed c)
    (_update c) (console c) (events c).

Definition set_pageGroup (v : Group num) (c : VRUI num) : VRUI num :=
  mkVRUI (enabled c) (data_width c) (data_height c) (data_mode_type c)
    (data_mode_template c) (inputObject c) (pages c) v (_pageId c)
    (currPage c) (_raycaster c) (_mouse c) (_state_pressed c) (_forcePressed c)
    (_update c) (console c) (events c).

Definition set_pageId (v : option Z) (c : VRUI num) : VRUI num :=
  mkVRUI (enabled c) (data_width c) (data_height c) (data_mode_type c)
    (data_mode_template c) (inputObject c) (pages c) (pageGroup c) v
    (currPage c) (_raycaster c) (_mouse c) (_state_pressed c) (_forcePressed c)
    (_update c) (console c) (events c).

Definition set_currPage (v : option nat) (c : VRUI num) : VRUI num :=
  mkVRUI (enabled c) (data_width c) (data_height c) (data_mode_type c)
    (data_mode_template c) (inputObject c) (pages c) (pageGroup c) (_pageId c)
    v (_raycaster c) (_mouse c) (_state_pressed c) (_forcePressed c)
    (_update c) (console c) (events c).

Definition set_inputObject (v : option InputObject) (c : VRUI num) : VRUI num :=
  mkVRUI (enabled c) (data_width c) (data_height c) (data_mode_type c)
    (data_mode_template c) v (pages c) (pageGroup c) (_pageId c)
    (currPage c) (_raycaster c) (_mouse c) (_state_pressed c) (_forcePressed c)
    (_update c) (console c) (events c).

Definition set_raycaster (v : Ray) (c : VRUI num) : VRUI num :=
  mkVRUI (enabled c) (data_width c) (data_height c) (data_mode_type c)
    (data_mode_template c) (inputObject c) (pages c) (pageGroup c) (_pageId c)
    (currPage c) v (_mouse c) (_state_pressed c) (_forcePressed c)
    (_update c) (console c) (events c).

Definition set_mouse (v : Mouse) (c : VRUI num) : VRUI num :=
  mkVRUI (enabled c) (data_width c) (data_height c) (data_mode_type c)
    (data_mode_template c) (inputObject c) (pages c) (pageGroup c) (_pageId c)
    (currPage c) (_raycaster c) v (_state_pressed c) (_forcePressed c)
    (_update c) (console c) (events c).

Definition set_state_pressed (v : bool) (c : VRUI num) : VRUI num :=
  mkVRUI (enabled c) (data_width c) (data_height c) (data_mode_type c)
    (data_mode_template c) (inputObject c) (pages c) (pageGroup c) (_pageId c)
    (currPage c) (_raycaster c) (_mouse c) v (_forcePressed c)
    (_update c) (console c) (events c).

Definition set_forcePressed (v : bool) (c : VRUI num) : VRUI num :=
  mkVRUI (enabled c) (data_width c) (data_height c) (data_mode_type c)
    (data_mode_template c) (inputObject c) (pages c) (pageGroup c) (_pageId c)
    (currPage c) (_raycaster c) (_mouse c) (_state_pressed c) v
    (_update c) (console c) (events c).

Definition set_update (v : UpdateFn) (c : VRUI num) : VRUI num :=
  mkVRUI (enabled c) (data_width c) (data_height c) (data_mode_type c)
    (data_mode_template c) (inputObject c) (pages c) (pageGroup c) (_pageId c)
    (currPage c) (_raycaster c) (_mouse c) (_state_pressed c) (_forcePressed c)
    v (console c) (events c).

Definition set_console (v : list string) (c : VRUI num) : VRUI num :=
  mkVRUI (enabled c) (data_width c) (data_height c) (data_mode_type c)
    (data_mode_template c) (inputObject c) (pages c) (pageGroup c) (_pageId c)
    (currPage c) (_raycaster c) (_mouse c) (_state_pressed c) (_forcePressed c)
    (_update c) v (events c).

Definition set_events (v : list Event) (c : VRUI num) : VRUI num :=
  mkVRUI (enabled c) (data_width c) (data_height c) (data_mode_type c)
    (data_mode_template c) (inputObject c) (pages c) (pageGroup c) (_pageId c)
    (currPage c) (_raycaster c) (_mouse c) (_state_pressed c) (_forcePressed c)
    (_update c) (console c) v.

(** *** Methods as state transformers that may throw *)

Definition M (A : Type) : Type := VRUI num -> Completion A * VRUI num.

Definition ret {A : Type} (a : A) : M A := fun this => (Normal a, this).

Definition throw {A : Type} (e : Exception) : M A := fun this => (Throw e, this).

Definition bind {A B : Type} (m : M A) (k : A -> M B) : M B :=
  fun this =>
    match m this with
    | (Normal a, this') => k a this'
    | (Throw e, this') => (Throw e, this')
    end.

Definition get : M (VRUI num) := fun this => (Normal this, this).

Definition modify (f : VRUI num -> VRUI num) : M unit :=
  fun this => (Normal tt, f this).

(** [console.warn( msg )] *)
Definition warn (msg : string) : M unit :=
  modify (fun this => set_console (console this ++ [msg]) this).

End Controller.

Arguments M : clear implicits.

Notation "x <- m ;; k" := (bind m (fun x => k))
  (at level 61, m at next level, right associativity).
Notation "m ;;; k" := (bind m (fun _ => k))
  (at level 61, right associativity).

(** *** Breadth-first search of a page *)

Section Visit.
Context {num : Type}.

(** The number of objects of a subtree. *)
Fixpoint weight (e : Element num) : nat :=
  match e with
  | mkElement _ _ _ _ _ _ _ _ _ _ _ elts =>
      S ((fix sum (l : list (Element num)) : nat :=
            match l with
            | [] => 0
            | c :: r => weight c + sum r
            end) elts)
  end.

Definition queue_weight (visited : list (list nat * Element num)) : nat :=
  fold_right (fun pe n => weight (snd pe) + n) 0 visited.

(** The elements of a list with their indices, counted from [i]. *)
Fixpoint indexed {A : Type} (i : nat) (l : list A) : list (nat * A) :=
  match l with
  | [] => []
  | a :: r => (i, a) :: indexed (S i) r
  end.

(** [elt._elements], each child with its path, for an element sitting at
    [path]; nothing when [elt._elements] is undefined. *)
Definition children_of (path : list nat) (elt : Element num)
  : list (list nat * Element num) :=
  if instanceof_AbstractLayout elt
  then map (fun ie => (path ++ [fst ie], snd ie)) (indexed 0 (_elements elt))
  else [].

Lemma queue_weight_app (q1 q2 : list (list nat * Element num)) :
  queue_weight (q1 ++ q2) = queue_weight q1 + queue_weight q2.
Proof.
  induction q1 as [|pe q1 IH]; simpl; [reflexivity|]. rewrite IH. lia.
Qed.

Lemma weight_eq (e : Element num) :
  weight e = S (fold_right (fun c n => weight c + n) 0 (_elements e)).
Proof.
  destruct e as [ty id st dims pd par g h bg en ex elts]. reflexivity.
Qed.

Lemma queue_weight_indexed (path : list nat) (elts : list (Element num)) (i : nat) :
  queue_weight (map (fun ie => (path ++ [fst ie], snd ie)) (indexed i elts))
  = fold_right (fun c n => weight c + n) 0 elts.
Proof.
  revert i. induction elts as [|c r IH]; intros i; [reflexivity|].
  cbn [indexed map queue_weight fold_right snd].
  f_equal. apply IH.
Qed.

Lemma queue_weight_children (path : list nat) (elt : Element num) :
  queue_weight (children_of path elt) < weight elt.
Proof.
  unfold children_of. rewrite (weight_eq elt).
  destruct (instanceof_AbstractLayout elt).
  - rewrite queue_weight_indexed. lia.
  - cbn [queue_weight fold_right]. lia.
Qed.

(** The [while ( visited.length > 0 )] loop of [_visit]: [visited] is the
    queue, [shift()] takes its head, the children of a visited element
    are pushed at its end.  The callback answers whether it returns the
    element (a truthy value) or null. *)
Equations? visit_loop (callback : Element num -> bool)
    (visited : list (list nat * Element num))
  : option (list nat) by wf (queue_weight visited) lt :=
  visit_loop callback [] := None;
  visit_loop callback ((path, elt) :: rest) :=
    if callback elt then Some path
    else visit_loop callback (rest ++ children_of path elt).
Proof.
  rewrite queue_weight_app.
  change (queue_weight ((path, elt) :: rest)) with (weight elt + queue_weight rest).
  pose proof (queue_weight_children path elt). lia.
Qed.

(** [_visit( layout, callback )]: the path, from [layout], of the first
    element in breadth-first order on which the callback answers, [None]
    for null. *)
Definition _visit (layout : Element num) (callback : Element num -> bool)
  : option (list nat) :=
  if negb (instanceof_AbstractLayout layout) then None
  else visit_loop callback (children_of [] layout).

(** The object at the end of a path. *)
Fixpoint subtree (path : list nat) (e : Element num) : option (Element num) :=
  match path with
  | [] => Some e
  | i :: p =>
      match nth_error (_elements e) i with
      | Some c => subtree p c
      | None => None
      end
  end.

(** The list with [f] applied at index [i]; a list that has no index
    [i] is left as it is. *)
Fixpoint update_nth {A : Type} (i : nat) (f : A -> A) (l : list A) : list A :=
  match l, i with
  | [], _ => []
  | a :: r, 0 => f a :: r
  | a :: r, S j => a :: update_nth j f r
  end.

(** The tree with the object at the end of a path replaced. *)
Fixpoint update_at (path : list nat) (f : Element num -> Element num)
    (e : Element num) : Element num :=
  match path with
  | [] => f e
  | i :: p => set_elements (update_nth i (update_at p f) (_elements e)) e
  end.

End Visit.

(** *** The methods of VRUI *)

Section Methods.
Context {num : Type} {N : Number num}.

Definition string_of_Z (z : Z) : string := NilZero.string_of_int (Z.to_int z).

(** ToBoolean of a string that may be undefined: [if ( layoutID )]. *)
Definition truthy_string (s : option string) : bool :=
  match s with
  | Some s => negb (String.eqb s "")
  | None => false
  end.

(** [a === b] on strings that may be undefined. *)
Definition strict_eqb (a b : option string) : bool :=
  match a, b with
  | Some x, Some y => String.eqb x y
  | None, None => true
  | _, _ => false
  end.

(** [x || d] on a number that may be undefined. *)
Definition or_default (x : option num) (d : num) : num :=
  match x with
  | Some v => if truthy v then v else d
  | None => d
  end.

(** [this.pages[ id ]], as a reference. *)
Definition page_at (id : option Z) (this : VRUI num) : option nat :=
  match id with
  | Some z =>
      if ((0 <=? z) && (z <? Z.of_nat (length (pages this))))%Z
      then Some (Z.to_nat z)
      else None
  | None => None
  end.

(** The effect of [f] on the page a reference points to. *)
Definition update_page (i : nat) (f : Element num -> Element num) : M num unit :=
  modify (fun this => set_pages (update_nth i f (pages this)) this).

(** [page.setVisible( v )] through a reference that may be undefined. *)
Definition call_setVisible (page : option nat) (v : bool) : M num unit :=
  match page with
  | Some i => update_page i (setVisible v)
  | None => throw (TypeError "Cannot read property 'setVisible' of undefined")
  end.

(** [addPage( page, dimensions )].  The defaults written into the
    caller's [dimensions] object are not kept: the controller never reads
    that object again. *)
Definition addPage (page : Value num) (dimensions : option (Dim num)) : M num unit :=
  this <- get ;;
  let dim :=
    match dimensions with
    | Some d => d
    | None => mkDim (Some (data_width this)) (Some (data_height this))
    end in
  let dim_width := or_default (dim_width dim) (data_width this) in
  let dim_height := or_default (dim_height dim) (data_height this) in
  match page with
  | VElement page =>
      let i := length (pages this) in
      let '(pg, g) := group_add (pageGroup this) (group page) in
      modify (fun this =>
                set_pageGroup pg (set_pages (pages this ++ [set_group g page]) this)) ;;;
      update_page i (fun page =>
                       set_parentDimensions (Some (dim_width, dim_height))
                         (set_parent None page)) ;;;
      update_page i (fun page =>
                       set_group
                         (set_position_y (mul dim_height half)
                            (set_position_x (mul (neg dim_width) half) (group page)))
                         page) ;;;
      this <- get ;;
      if negb (length (pages this) =? 1) then
        call_setVisible (Some i) false
      else
        modify (set_pageId (Some 0%Z)) ;;;
        modify (fun this => set_currPage (page_at (_pageId this) this) this) ;;;
        call_setVisible (Some i) true
  | _ =>
      throw (TypeError "VRUI.addPage(): Page should be provided a VRUI.Element or a")
  end.

(** [a % n] on a number that may be NaN, [n] a length. *)
Definition js_rem (a : option Z) (n : nat) : option Z :=
  match a with
  | Some x => if n =? 0 then None else Some (Z.rem x (Z.of_nat n))
  | None => None
  end.

(** [nextPage()] *)
Definition nextPage : M num unit :=
  modify (fun this =>
            set_pageId
              (js_rem (option_map (fun i => (i + 1)%Z) (_pageId this))
                      (length (pages this)))
              this) ;;;
  this <- get ;;
  call_setVisible (currPage this) false ;;;
  modify (fun this => set_currPage (page_at (_pageId this) this) this) ;;;
  this <- get ;;
  call_setVisible (currPage this) true.

(** [prevPage()] *)
Definition prevPage : M num unit :=
  modify (fun this =>
            set_pageId
              (js_rem (option_map (fun i => (i - 1)%Z) (_pageId this))
                      (length (pages this)))
              this) ;;;
  modify (fun this =>
            set_pageId
              (option_map
                 (fun i => if (i <? 0)%Z
                           then (Z.of_nat (length (pages this)) - 1)%Z
                           else i)
                 (_pageId this))
              this) ;;;
  this <- get ;;
  call_setVisible (currPage this) false ;;;
  modify (fun this => set_currPage (page_at (_pageId this) this) this) ;;;
  this <- get ;;
  call_setVisible (currPage this) true.


(** [disableMouse()] *)
Definition disableMouse : M num unit :=
  modify (fun this => set_mouse (mkMouse false (m_camera (_mouse this)) []) this) ;;;
  modify (set_update UpdateVR).


(** [setPressed( trigger )] *)
Definition setPressed (trigger : bool) : M num unit :=
  this <- get ;;
  if m_enabled (_mouse this) then
    warn "VRUI.setPressed(): this method only works with input object."
  else modify (set_forcePressed trigger).

(** [this.currPage._intersect( this._raycaster, this._state )] *)
Definition currPage_intersect : M num (option bool) :=
  this <- get ;;
  match currPage this with
  | None => throw (TypeError "Cannot read property '_intersect' of undefined")
  | Some i =>
      match nth_error (pages this) i with
      | None => throw (TypeError "Cannot read property '_intersect' of undefined")
      | Some page =>
          let '(hit, page', evs) :=
            _intersect (_raycaster this) (_state_pressed this) page in
          update_page i (fun _ => page') ;;;
          modify (fun this => set_events (events this ++ evs) this) ;;;
          ret (Some hit)
      end
  end.

(** [_updateMouse()] *)
Definition _updateMouse : M num (option bool) :=
  this <- get ;;
  match m_camera (_mouse this) with
  | None => throw (TypeError "Cannot read property of null")
  | Some cam =>
      modify (set_raycaster (setFromCamera cam)) ;;;
      currPage_intersect
  end.

(** [_updateVR()]; the answer [None] is [null]. *)
Definition _updateVR : M num (option bool) :=
  this <- get ;;
  match inputObject this with
  | None => ret None
  | Some input =>
      match userData_vrui_pressed input with
      | None => throw (TypeError "Cannot read property 'pressed' of undefined")
      | Some pressed =>
          modify (set_state_pressed (pressed || _forcePressed this)) ;;;
          modify (set_raycaster (matrixWorld input)) ;;;
          currPage_intersect
      end
  end.

(** [update()] *)
Definition update : M num (option bool) :=
  this <- get ;;
  if negb (enabled this) then ret None
  else
    match _update this with
    | UpdateVR => _updateVR
    | UpdateMouse => _updateMouse
    end.

(** The object a reference points to. *)
Definition deref (r : Ref) (this : VRUI num) : option (Element num) :=
  match nth_error (pages this) (ref_page r) with
  | Some page => subtree (ref_path r) page
  | None => None
  end.

(** Reading through a reference that may be null. *)
Definition load (r : option Ref) : M num (Element num) :=
  this <- get ;;
  match r with
  | None => throw (TypeError "Cannot read property of null")
  | Some r =>
      match deref r this with
      | Some e => ret e
      | None => throw (TypeError "Cannot read property of undefined")
      end
  end.

(** [this._visit( layout, callback )] for a layout given by reference:
    the reference of the element found, [None] for null. *)
Definition visit (layout : option Ref) (callback : Element num -> bool)
  : M num (option Ref) :=
  e <- load layout ;;
  match layout with
  | Some r =>
      ret (option_map (fun p => mkRef (ref_page r) (ref_path r ++ p))
                      (_visit e callback))
  | None => ret None
  end.

(** [_addWithExpansion( element, layoutID )] *)
Definition _addWithExpansion (element : Element num) (layoutID : option string)
  : M num unit :=
  this <- get ;;
  let pages0 := pages this in
  match data_mode_template this with
  | VElement template =>
      if negb (instanceof_AbstractLayout template) then
        throw (Error "VRUI.add(): provided template should be an instance of VRUI.AbstractLayout.")
      else
        let lastPage :=
          if 0 <? length pages0 then Some (mkRef (length pages0 - 1) []) else None in
        let findLayout := fun elt : Element num => strict_eqb (data_id elt) layoutID in
        lastPage <-
          match lastPage with
          | Some r => ret (Some r)
          | None =>
              addPage (VElement (clone template)) None ;;;
              ret (Some (mkRef (length pages0) []))
          end ;;
        lastPage <-
          (if truthy_string layoutID then visit lastPage findLayout
           else ret lastPage) ;;
        this <- get ;;
        match match lastPage with Some r => deref r this | None => None end with
        | None =>
            throw (Error "VRUI.add(): trying to add element in an element that is not an instance of VRUI.AbstractLayout!")
        | Some target =>
            if negb (instanceof_AbstractLayout target) then
              throw (Error "VRUI.add(): trying to add element in an element that is not an instance of VRUI.AbstractLayout!")
            else
              lastPage <-
                (if isFull target then
                   let page := mkRef (length (pages this)) [] in
                   addPage (VElement (clone template)) None ;;;
                   (if truthy_string layoutID then visit (Some page) findLayout
                    else ret lastPage)
                 else ret lastPage) ;;
              match lastPage with
              | None =>
                  warn ("VRUI.add(): given layoutID '"
                          ++ match layoutID with Some s => s | None => "undefined" end
                          ++ "' was not found.")
              | Some r =>
                  target <- load (Some r) ;;
                  let '(completion, target') :=
                    AbstractLayout_add [VElement element] target in
                  update_page (ref_page r)
                    (update_at (ref_path r) (fun _ => target')) ;;;
                  match completion with
                  | Normal _ => ret tt
                  | Throw e => throw e
                  end
              end
        end
  | _ =>
      throw (Error "VRUI.add(): provided template should be an instance of VRUI.AbstractLayout.")
  end.

(** [_add( element, layoutID )] *)
Definition _add (element : Value num) (layoutID : option string) : M num unit :=
  match element with
  | VElement elt =>
      this <- get ;;
      let modeType := data_mode_type this in
      if (modeType =? AUTOMATIC_ADDING)%Z then _addWithExpansion elt layoutID
      else warn ("VRUI.add(): unrecognized mode '" ++ string_of_Z modeType ++ "'")
  | _ =>
      throw (TypeError "VRUI.add(): the provided element is neither an instance of VRUI.Element, nor an array of VRUI.Element.")
  end.

(** [for ( let elt of element ) this._add( elt, layoutID )] *)
Fixpoint _add_each (elts : list (Value num)) (layoutID : option string)
  : M num unit :=
  match elts with
  | [] => ret tt
  | elt :: rest => _add elt layoutID ;;; _add_each rest layoutID
  end.

(** [add( element, layoutID )] of VRUI. *)
Definition VRUI_add (element : Value num) (layoutID : option string) : M num unit :=
  match element with
  | VUndefined | VNull =>
      throw (TypeError "Cannot read property 'constructor' of undefined")
  | VArray elts => _add_each elts layoutID
  | _ => _add element layoutID
  end.

(** [!x || x <= 0] on a number that may be undefined. *)
Definition missing_or_not_positive (x : option num) : bool :=
  match x with
  | Some v => negb (truthy v) || geb zero v
  | None => true
  end.

(** [new VRUI( data, root )] *)
Definition new_VRUI (data : Data num) (root : Value num) : Completion (VRUI num) :=
  if missing_or_not_positive (cfg_width data) then
    Throw (TypeError "VRUI.ctor(): parent layout should have a width specified in Three.js world units, non-negative nor null.")
  else if missing_or_not_positive (cfg_height data) then
    Throw (TypeError "VRUI.ctor(): parent layout should have a height specified in Three.js world units, non-negative nor null.")
  else
    let mode :=
      match cfg_mode data with
      | Some m => m
      | None => (Some AUTOMATIC_ADDING, VUndefined)
      end in
    let mode_type :=
      match fst mode with
      | Some t => if (t =? 0)%Z then AUTOMATIC_ADDING else t
      | None => AUTOMATIC_ADDING
      end in
    let template : Completion (Value num) :=
      if (mode_type =? AUTOMATIC_ADDING)%Z then
        match snd mode with
        | VUndefined | VNull => Normal VNull
        | VElement t => Normal (VElement (clone t))
        | _ => Throw (TypeError "template.clone is not a function")
        end
      else Normal (snd mode) in
    match template with
    | Throw e => Throw e
    | Normal template =>
        let this :=
          mkVRUI true
            (or_default (cfg_width data) half)
            (or_default (cfg_height data) half)
            mode_type template None []
            (mkGroup 0 None [] zero zero true)
            None None [] (mkMouse false None []) false false UpdateVR [] [] in
        match root with
        | VUndefined | VNull => Normal this
        | _ =>
            match addPage root None this with
            | (Normal _, this') => Normal this'
            | (Throw e, _) => Throw e
            end
        end
    end.

End Methods.

(** *** VRUI.refresh *)

Section ControllerRefresh.
Context {num : Type} {N : Number num}.
Variable resolveDimensions :
  Element num -> option num -> option num -> Dimensions num.

(** [for ( let elt of this.pages ) elt.refresh()]: the refreshed pages
    and the warnings printed on the way.  Both arguments of
    [elt.refresh] are undefined. *)
Fixpoint refresh_pages (elts : list (Element num))
  : list (Element num) * list string :=
  match elts with
  | [] => ([], [])
  | elt :: rest =>
      let '(elt', w) := refresh resolveDimensions None None elt in
      let '(rest', ws) := refresh_pages rest in
      (elt' :: rest', w ++ ws)
  end.

(** [refresh()] of VRUI. *)
Definition VRUI_refresh : M num unit :=
  this <- get ;;
  let '(pages', warnings) := refresh_pages (pages this) in
  modify (set_pages pages') ;;;
  modify (fun this => set_console (console this ++ warnings) this).

End ControllerRefresh.

(** ** Widget trees and controllers used as concrete inputs *)

Section Fixtures.
Context {num : Type} {N : Number num}.

Definition box0 : Box num := mkBox zero zero zero zero.

Definition dims0 : Dimensions num := mkDimensions zero zero zero box0 box0.

(** A leaf widget of declared height [h]; [id] names its group and its
    mesh. *)
Definition view (id : nat) (h : num) : Element num :=
  mkElement ElementView None (mkStyle one h AlignTop PositionLeft) dims0 None None
    (mkGroup id None [] zero zero true) false id None None [].

(** A vertical layout with the given [data.id] and children. *)
Definition layout (id : nat) (name : option string) (elts : list (Element num))
  : Element num :=
  mkElement VerticalLayout name (mkStyle one one AlignTop PositionLeft) dims0 None
    None (mkGroup id None [] zero zero true) false id None None elts.

(** The controller [new VRUI( { width: 1, height: 1, mode: { template } } )],
    with no root. *)
Definition controller (template : Element num) : Completion (VRUI num) :=
  new_VRUI (mkData (Some one) (Some one) (Some (None, VElement template))) VUndefined.

(** A controller as the constructor leaves it, with the given template
    and no page. *)
Definition empty_controller (template : Value num) : VRUI num :=
  mkVRUI true one one AUTOMATIC_ADDING template None []
    (mkGroup 0 None [] zero zero true) None None [] (mkMouse false None [])
    false false UpdateVR [] [].

(** A child with the given computed box, for the layout examples. *)
Definition boxed (id : nat) (a : Align) (p : Position) (w h : num) (m : Box num)
  : Element num :=
  mkElement ElementView None (mkStyle w h a p)
    (mkDimensions w h (mul w half) m box0) None None
    (mkGroup id None [] zero zero true) false id None None [].

(** A dimension resolver that keeps the dimensions an element carries. *)
Definition keepDimensions (e : Element num) (_ _ : option num) : Dimensions num :=
  _dimensions e.

End Fixtures.

(** The numbers of all direct children's declared heights, in order. *)
Definition heights {num : Type} (this : Element num) : list num :=
  map (fun elt => s_height (style elt)) (_elements this).

(** [descendant a d]: [d] is a child of the layout [a], or a descendant
    of one of its children. *)
Inductive descendant {num : Type} : Element num -> Element num -> Prop :=
| descendant_child (a c : Element num) :
    instanceof_AbstractLayout a = true -> In c (_elements a) -> descendant a c
| descendant_step (a c d : Element num) :
    instanceof_AbstractLayout a = true -> In c (_elements a) ->
    descendant c d -> descendant a d.

(** ** Vocabulary of the properties *)

Section Vocabulary.
Context {num : Type} {N : Number num}.

(** The child [elt] as [_addItem] stores it in the layout [this]: its
    group is attached to the group of the layout. *)
Definition attached (this elt : Element num) : Element num :=
  set_group (set_gparent (Some (gid (group this))) (group elt)) elt.

(** The width and the height [addPage] gives a page. *)
Definition page_width (this : VRUI num) (dimensions : option (Dim num)) : num :=
  match dimensions with
  | Some d => or_default (dim_width d) (data_width this)
  | None => data_width this
  end.

Definition page_height (this : VRUI num) (dimensions : option (Dim num)) : num :=
  match dimensions with
  | Some d => or_default (dim_height d) (data_height this)
  | None => data_height this
  end.

(** The page object as [addPage] leaves it, [v] being its visibility. *)
Definition placed_page (this : VRUI num) (page : Element num)
    (dimensions : option (Dim num)) (v : bool) : Element num :=
  let w := page_width this dimensions in
  let h := page_height this dimensions in
  mkElement (type page) (data_id page) (style page) (_dimensions page)
    (Some (w, h)) None
    (mkGroup (gid (group page)) (Some (gid (pageGroup this)))
       (gchildren (group page)) (mul (neg w) half) (mul h half) v)
    (hover page) (_background page) (_onHoverEnter page) (_onHoverExit page)
    (_elements page).

(** The group of the pages after the page has been attached to it. *)
Definition pageGroup_with (this : VRUI num) (page : Element num) : Group num :=
  set_gchildren (gchildren (pageGroup this) ++ [gid (group page)]) (pageGroup this).

(** A call of [nextPage] or of [prevPage]. *)
Inductive Turn : Type := Next | Prev.

Definition turn (t : Turn) : M num unit :=
  match t with
  | Next => nextPage
  | Prev => prevPage
  end.

(** A call of [addPage( page, dimensions )], of [nextPage()] or of
    [prevPage()]. *)
Inductive PageOp : Type :=
| AddPage (page : Element num) (dimensions : option (Dim num))
| Turned (t : Turn).

Definition page_op (o : PageOp) : M num unit :=
  match o with
  | AddPage page dimensions => addPage (VElement page) dimensions
  | Turned t => turn t
  end.

(** A sequence of such calls, each made after the previous one has
    returned. *)
Fixpoint page_ops (os : list PageOp) : M num unit :=
  match os with
  | [] => ret tt
  | o :: rest => page_op o ;;; page_ops rest
  end.

(** The index reached from [i] among [n] pages: [(i + 1) mod n] forward,
    [(i - 1) mod n] backward. *)
Definition turn_index (n : nat) (i : nat) (t : Turn) : nat :=
  match t with
  | Next => (i + 1) mod n
  | Prev => (i + n - 1) mod n
  end.

(** Page [i] is the current page and the only visible page. *)
Definition current_page (this : VRUI num) (i : nat) : Prop :=
  i < length (pages this)
  /\ _pageId this = Some (Z.of_nat i)
  /\ currPage this = Some i
  /\ forall j p, nth_error (pages this) j = Some p -> visible (group p) = (j =? i).


(** The state after hiding page [i] and showing page [i']. *)
Definition turned (this : VRUI num) (i i' : nat) : VRUI num :=
  set_currPage (Some i')
    (set_pageId (Some (Z.of_nat i'))
       (set_pages
          (update_nth i' (setVisible true) (update_nth i (setVisible false) (pages this)))
          this)).

(** The width left to the children: [dimensions.width - horizontalPad]. *)
Definition inner_width (d : Dimensions num) : num :=
  sub (width d) (add (b_right (padding d)) (b_left (padding d))).

Definition inner_height (d : Dimensions num) : num :=
  sub (height d) (add (top (padding d)) (bottom (padding d))).

(** The running [offset.top] after a child aligned on top. *)
Definition advance (offset_top : num) (c : Element num) : num :=
  add (add offset_top (top (margin (_dimensions c))))
      (add (height (_dimensions c)) (bottom (margin (_dimensions c)))).

(** The value of [offset.top] when the loop reaches the child that
    follows the children [cs], all aligned on top. *)
Definition top_before (padding_top : num) (cs : list (Element num)) : num :=
  fold_left advance cs padding_top.

(** The distance from the top of the layout to the upper edge of the
    child [c] that follows the children [cs]. *)
Definition upper_edge (padding_top : num) (cs : list (Element num))
    (c : Element num) : num :=
  add (top_before padding_top cs) (top (margin (_dimensions c))).


(** The layout [P] after [P.add( e )]. *)
Definition added (P e : Element num) : Element num :=
  set_group (set_gchildren (gchildren (group P) ++ [gid (group e)]) (group P))
    (set_elements (_elements P ++ [attached P e]) P).

(** Calls of [add( element )], one element at a time, without layoutID. *)
Fixpoint adds (es : list (Element num)) : M num unit :=
  match es with
  | [] => ret tt
  | e :: rest => VRUI_add (VElement e) None ;;; adds rest
  end.

(** The controller is in automatic mode with the layout [T] as
    template. *)
Definition expansion_ready (this : VRUI num) (T : Element num) : Prop :=
  data_mode_type this = AUTOMATIC_ADDING
  /\ data_mode_template this = VElement T
  /\ instanceof_AbstractLayout T = true.

(** The page [P] holds the children of the template [T] followed by the
    elements [done], added in this order. *)
Definition filled (P T : Element num) (done : list (Element num)) : Prop :=
  instanceof_AbstractLayout P = true
  /\ gid (group P) = gid (group T)
  /\ _elements P = _elements T ++ map (attached T) done.

(** The element with every [hover] flag of its tree cleared. *)
Fixpoint unhover (e : Element num) : Element num :=
  match e with
  | mkElement ty id st dims pd par g h bg enter exit elts =>
      mkElement ty id st dims pd par g false bg enter exit (map unhover elts)
  end.

(** The element with the data [refresh] computes erased in its whole
    tree: the computed dimensions and the position of the group. *)
Fixpoint declared (e : Element num) : Element num :=
  match e with
  | mkElement ty id st dims pd par g h bg enter exit elts =>
      mkElement ty id st dims0 pd par
        (mkGroup (gid g) (gparent g) (gchildren g) zero zero (visible g))
        h bg enter exit (map declared elts)
  end.

Definition is_top (c : Element num) : bool :=
  match align (style c) with
  | AlignTop => true
  | _ => false
  end.

Definition is_bottom (c : Element num) : bool :=
  match align (style c) with
  | AlignBottom => true
  | _ => false
  end.

(** The running [offset.bottom] after a child aligned on the bottom. *)
Definition advance_bottom (offset_bottom : num) (c : Element num) : num :=
  add (add offset_bottom (bottom (margin (_dimensions c))))
      (add (height (_dimensions c)) (top (margin (_dimensions c)))).

(** The number of children declaring [align = center] in the tree of a
    layout, at every depth. *)
Fixpoint centered (e : Element num) : nat :=
  match e with
  | mkElement ty _ _ _ _ _ _ _ _ _ _ elts =>
      match ty with
      | ElementView => 0
      | VerticalLayout =>
          (fix sum (l : list (Element num)) : nat :=
             match l with
             | [] => 0
             | c :: r =>
                 centered c
                 + (match align (style c) with AlignCenter => 1 | _ => 0 end)
                 + sum r
             end) elts
      end
  end.

(** The message of [VerticalLayout.refresh] on a centered child. *)
Definition center_warning : string :=
  "VerticalLayout.refresh(): 'center' is not supported yet with this layouts".

(** The object reached from [e] along a path of child indices, every
    object on the way but the last having [_elements]. *)
Fixpoint below (path : list nat) (e : Element num) : option (Element num) :=
  match path with
  | [] => Some e
  | i :: p =>
      if instanceof_AbstractLayout e then
        match nth_error (_elements e) i with
        | Some c => below p c
        | None => None
        end
      else None
  end.

(** The warning of [_add] in a mode that is not known. *)
Definition mode_warning (this : VRUI num) : string :=
  ("VRUI.add(): unrecognized mode '" ++ string_of_Z (data_mode_type this) ++ "'")%string.

(** The error of [_add] on a value that is not an Element. *)
Definition not_an_element : Exception :=
  TypeError "VRUI.add(): the provided element is neither an instance of VRUI.Element, nor an array of VRUI.Element.".

(** The error of [_addWithExpansion] on a template that is not a layout. *)
Definition not_a_template : Exception :=
  Error "VRUI.add(): provided template should be an instance of VRUI.AbstractLayout.".

(** [k] calls of [nextPage], or [k] calls of [prevPage], in a row. *)
Fixpoint turns (k : nat) (t : Turn) : M num unit :=
  match k with
  | 0 => ret tt
  | S k => turn t ;;; turns k t
  end.

(** The error of a call on [this.currPage] while it is undefined. *)
Definition no_current_page : Exception :=
  TypeError "Cannot read property 'setVisible' of undefined".

(** [this'] has the pages of [this], each with the visibility it had,
    followed by hidden pages, and the same current page. *)
Definition extends (this this' : VRUI num) : Prop :=
  _pageId this' = _pageId this
  /\ currPage this' = currPage this
  /\ length (pages this) <= length (pages this')
  /\ forall j p', nth_error (pages this') j = Some p' ->
       match nth_error (pages this) j with
       | Some p => visible (group p') = visible (group p)
       | None => visible (group p') = false
       end.

(** [this'] differs from [this] at most in its pages, its page group,
    its current page and its console. *)
Definition untouched (this this' : VRUI num) : Prop :=
  enabled this' = enabled this
  /\ data_width this' = data_width this
  /\ data_height this' = data_height this
  /\ data_mode_type this' = data_mode_type this
  /\ data_mode_template this' = data_mode_template this
  /\ inputObject this' = inputObject this
  /\ _raycaster this' = _raycaster this
  /\ _mouse this' = _mouse this
  /\ _state_pressed this' = _state_pressed this
  /\ _forcePressed this' = _forcePressed this
  /\ _update this' = _update this
  /\ events this' = events this.







(** The update function, the [enabled] flag of the mouse and its camera
    agree. *)
Definition mouse_consistent (this : VRUI num) : Prop :=
  match _update this with
  | UpdateMouse =>
      m_enabled (_mouse this) = true
      /\ m_camera (_mouse this) <> None
      /\ m_listeners (_mouse this) = ["mousemove"; "mousedown"; "mouseup"]
  | UpdateVR =>
      m_enabled (_mouse this) = false /\ m_listeners (_mouse this) = []
  end.

(** Started in a state that satisfies [pre], the computation [m] leaves
    a state related to it by [rel], whether it returns or throws. *)
Definition respects (pre : VRUI num -> Prop) (rel : VRUI num -> VRUI num -> Prop)
    {A : Type} (m : M num A) : Prop :=
  forall this, pre this -> rel this (snd (m this)).

(** [this'] differs from [this] at most in its ray, its press state,
    its events and the contents of its current page. *)
Definition pointed (this this' : VRUI num) : Prop :=
  enabled this' = enabled this
  /\ data_width this' = data_width this
  /\ data_height this' = data_height this
  /\ data_mode_type this' = data_mode_type this
  /\ data_mode_template this' = data_mode_template this
  /\ inputObject this' = inputObject this
  /\ pageGroup this' = pageGroup this
  /\ _pageId this' = _pageId this
  /\ currPage this' = currPage this
  /\ _mouse this' = _mouse this
  /\ _forcePressed this' = _forcePressed this
  /\ _update this' = _update this
  /\ console this' = console this
  /\ length (pages this') = length (pages this)
  /\ forall j, currPage this <> Some j ->
               nth_error (pages this') j = nth_error (pages this) j.

(** The warning of [setPressed] while the mouse is enabled. *)
Definition pressed_warning : string :=
  "VRUI.setPressed(): this method only works with input object.".


(** The element with its group moved to the position [x], [y]. *)
Definition moved (x y : num) (e : Element num) : Element num :=
  set_group (set_position_y y (set_position_x x (group e))) e.

End Vocabulary.

(** ** Concrete widget trees and controllers *)





(** Calls made on a controller that has one page: [addPage], [nextPage],
    [nextPage], [addPage], [prevPage]. *)
Definition page_calls : list (@PageOp float) :=
  [AddPage (layout 2 None []) None; Turned Next; Turned Next;
   AddPage (layout 3 None []) (Some (mkDim (Some 2%float) None));
   Turned Prev].

(** A template that holds a layout whose [data.id] is grid. *)
Definition grid_template : Element float :=
  layout 1 None [layout 2 (Some "grid") []].

(** A controller with this template and one page, a clone of it. *)
Definition grid_controller : VRUI float :=
  snd (addPage (VElement grid_template) None (empty_controller (VElement grid_template))).

(** An empty vertical layout, used as template. *)
Definition empty_template : Element float := layout 1 None [].

(** Three elements of declared height 0.5: an empty layout has room for
    exactly two of them. *)
Definition half_views : list (Element float) :=
  [view 10 0.5%float; view 11 0.5%float; view 12 0.5%float].

(** A layout of height 1 whose children declare, in order, the
    alignments top, center, bottom and top, each of height 1/8. *)
Definition mixed_layout : Element Q :=
  mkElement VerticalLayout None (mkStyle 1%Q 1%Q AlignTop PositionLeft)
    (mkDimensions 1%Q 1%Q (1 # 2)%Q box0 box0)
    None None (mkGroup 1 None [] 0%Q 0%Q true) false 1 None None
    [boxed 2 AlignTop PositionLeft 1%Q (1 # 8)%Q box0;
     boxed 3 AlignCenter PositionLeft 1%Q (1 # 8)%Q box0;
     boxed 4 AlignBottom PositionLeft 1%Q (1 # 8)%Q box0;
     boxed 5 AlignTop PositionLeft 1%Q (1 # 8)%Q box0].

Definition mixed_refreshed : Element Q :=
  fst (refresh keepDimensions None None mixed_layout).

(** Its fourth child after [refresh]. *)
Definition mixed_fourth : Element Q :=
  nth 3 (_elements mixed_refreshed) (view 0 0%Q).

(** [grid_controller] after an element of height 1 was added to grid:
    the layout grid of its page is full. *)
Definition full_grid_controller : VRUI float :=
  snd (_addWithExpansion (view 10 1%float) (Some "grid") grid_controller).

(** A controller as the constructor leaves it for
    [{ width: 1, height: 1, mode: { type: 1 } }]. *)
Definition other_mode_controller : VRUI float :=
  mkVRUI true 1%float 1%float 1%Z VUndefined None []
    (mkGroup 0 None [] 0%float 0%float true) None None [] (mkMouse false None [])
    false false UpdateVR [] [].

(** The controller with three pages that the calls [page_calls] leave. *)
Definition three_pages : VRUI float :=
  snd ((addPage (VElement (layout 1 None [])) None ;;; page_ops page_calls)
         (empty_controller VNull)).



(** [three_pages] with a tracked device whose trigger is released. *)
Definition tracked_controller : VRUI float :=
  set_inputObject (Some (mkInputObject (Some false) [1])) three_pages.

(** A dimension resolver that reads the declared style only: the
    declared width and height, no margin and no padding. *)
Definition styleDimensions (e : Element Q) (_ _ : option Q) : Dimensions Q :=
  mkDimensions (s_width (style e)) (s_height (style e))
    (s_width (style e) * (1 # 2))%Q box0 box0.

(** * Properties *)

(** ** Exact rational arithmetic satisfies the laws *)



(** ** The constructor *)

(** The controller used in the examples is the one the constructor
    builds from [{ width: 1, height: 1, mode: { template } }]. *)
Lemma controller_built :
  controller empty_template = Normal (empty_controller (VElement empty_template))
  /\ controller grid_template = Normal (empty_controller (VElement grid_template)).
Proof. split; vm_compute; reflexivity. Qed.

(** ** AbstractLayout.add *)

Section AddProperties.
Context {num : Type}.

Lemma addItems_elements (elts : list (Element num)) (this : Element num) :
  exists this',
    _addItems (map (@VElement num) elts) this = (Normal tt, this')
    /\ _elements this' = _elements this ++ map (attached this) elts
    /\ gchildren (group this') = gchildren (group this) ++ map (fun e => gid (group e)) elts
    /\ gid (group this') = gid (group this)
    /\ type this' = type this /\ style this' = style this.
Proof.
  revert this. induction elts as [|elt rest IH]; intros this.
  - exists this. cbn. rewrite !app_nil_r. repeat split; reflexivity.
  - destruct (IH (set_group (set_gchildren (gchildren (group this) ++ [gid (group elt)]) (group this))
                    (set_elements (_elements this ++ [attached this elt]) this)))
      as (this' & Hrun & Hel & Hg & Hid & Hty & Hst).
    exists this'. cbn [map _addItems _addItem group_add].
    split; [exact Hrun|]. cbn in Hel, Hg, Hid, Hty, Hst.
    rewrite Hel, Hg, Hid, Hty, Hst, <- !app_assoc. repeat split; reflexivity.
Qed.

(** What [add] does with one node or a variadic list of nodes: all are
    appended, in call order, each attached to the group of the layout. *)
Lemma add_elements_appends (elt : Element num) (elts : list (Element num))
    (this : Element num) :
  exists this',
    AbstractLayout_add (map (@VElement num) (elt :: elts)) this = (Normal tt, this')
    /\ _elements this' = _elements this ++ map (attached this) (elt :: elts)
    /\ gchildren (group this')
       = gchildren (group this) ++ map (fun e => gid (group e)) (elt :: elts).
Proof.
  destruct (addItems_elements (elt :: elts) this) as (this' & Hrun & Hel & Hg & _).
  exists this'. split; [exact Hrun|]. split; assumption.
Qed.

Lemma addItems_invalid_throws (args : list (Value num)) (this : Element num) :
  (exists v, In v args /\ forall e, v <> VElement e) ->
  exists e this', _addItems args this = (Throw e, this').
Proof.
  revert this. induction args as [|a args IH]; intros this (v & Hin & Hv).
  - destruct Hin.
  - cbn [_addItems].
    destruct a as [| |e|l|]; cbn [_addItem]; try (eexists; eexists; reflexivity).
    destruct (group_add (group this) (group e)) as [g eg].
    apply IH. exists v. split; [|exact Hv].
    destruct Hin as [<-|Hin]; [|exact Hin]. exfalso. apply (Hv e). reflexivity.
Qed.

(** An argument that is not an Element makes [add] throw. *)
Lemma add_invalid_throws (args : list (Value num)) (this : Element num) :
  (exists v, In v args /\ forall e, v <> VElement e) ->
  exists e this', AbstractLayout_add args this = (Throw e, this').
Proof.
  intros H. unfold AbstractLayout_add.
  destruct args as [|a args]; [destruct H as (v & [] & _)|].
  cbn [nth length]. replace (0 <? S (length args)) with true by reflexivity.
  destruct a; try (eexists; eexists; reflexivity);
    apply addItems_invalid_throws; exact H.
Qed.

End AddProperties.

(** C7.  [add] called with a sequence (an array) of nodes does not append
    the nodes: since [arguments.length > 0] holds whenever an argument is
    passed, the array itself is handed to [_addItem], which throws, and
    the layout is left as it was. *)
Theorem add_array_throws :
  forall (num : Type) (this : Element num) (elts : list (Value num)),
    AbstractLayout_add [VArray elts] this
    = (Throw (Error "AbstractLayout: addView(): provided element is not an instance of Element"),
       this).
Proof.
  intros num this elts. unfold AbstractLayout_add. cbn [nth length].
  reflexivity.
Qed.

(** ** VerticalLayout.isFull *)

Section IsFullProperties.
Context {num : Type} {N : Number num}.

Lemma fold_left_heights (elts : list (Element num)) (h : num) :
  fold_left (fun height elt => add height (s_height (style elt))) elts h
  = fold_left add (map (fun elt => s_height (style elt)) elts) h.
Proof.
  revert h. induction elts as [|elt rest IH]; intros h; [reflexivity|].
  cbn [fold_left map]. apply IH.
Qed.

Lemma isFull_heights (this : Element num) :
  isFull this = geb (fold_left add (heights this) zero) one.
Proof.
  unfold isFull, heights. rewrite fold_left_heights. reflexivity.
Qed.


End IsFullProperties.




(** ** VRUI.addPage *)

Section AddPageProperties.
Context {num : Type} {N : Number num}.

Lemma update_nth_last {A : Type} (f : A -> A) (l : list A) (x : A) :
  update_nth (length l) f (l ++ [x]) = l ++ [f x].
Proof.
  induction l as [|a l IH]; [reflexivity|]. cbn [length app update_nth].
  rewrite IH. reflexivity.
Qed.

Lemma addPage_first (this : VRUI num) (page : Element num)
    (dimensions : option (Dim num)) :
  pages this = [] ->
  addPage (VElement page) dimensions this
  = (Normal tt,
     set_currPage (Some 0)
       (set_pageId (Some 0%Z)
          (set_pageGroup (pageGroup_with this page)
             (set_pages [placed_page this page dimensions true] this)))).
Proof.
  intros Hp. unfold addPage, bind, get, modify, update_page, call_setVisible,
    page_at, placed_page, page_width, page_height, pageGroup_with.
  cbn. rewrite Hp. cbn.
  destruct dimensions as [d|]; cbn; [reflexivity|].
  destruct (truthy (data_width this)), (truthy (data_height this)); reflexivity.
Qed.

Lemma addPage_next (this : VRUI num) (page : Element num)
    (dimensions : option (Dim num)) :
  pages this <> [] ->
  addPage (VElement page) dimensions this
  = (Normal tt,
     set_pageGroup (pageGroup_with this page)
       (set_pages (pages this ++ [placed_page this page dimensions false]) this)).
Proof.
  intros Hp. unfold addPage, bind, get, modify, update_page, call_setVisible,
    placed_page, page_width, page_height, pageGroup_with.
  cbn. rewrite !update_nth_last.
  assert (Hlen : (length (pages this ++ [set_group
                    (set_gparent (Some (gid (pageGroup this))) (group page)) page]) =? 1)
                 = false).
  { rewrite length_app. cbn. destruct (pages this); [contradiction|].
    cbn. apply Nat.eqb_neq. lia. }
  rewrite !length_app in *. cbn in *. rewrite Hlen.
  unfold update_page, modify. cbn. rewrite ?update_nth_last. cbn.
  destruct dimensions as [d|]; cbn; [reflexivity|].
  destruct (truthy (data_width this)), (truthy (data_height this)); reflexivity.
Qed.

End AddPageProperties.

(** C9.  [addPage( page, dimensions )] on an Element returns normally, for
    every controller and every [dimensions]; the page is pushed at the end
    of [pages]; its [_parentDimensions] are the width [w] and height [h]
    of the page, which are the controller's own when [dimensions] is
    omitted; its group is placed at [x = -w * 0.5], [y = h * 0.5]; and
    when the controller already has a page, [currPage] and [_pageId] are
    unchanged. *)
Theorem addPage_dimensions_and_origin :
  forall (num : Type) (N : Number num) (this : VRUI num) (page : Element num)
         (dimensions : option (Dim num)),
    let w := page_width this dimensions in
    let h := page_height this dimensions in
    exists (this' : VRUI num) (page' : Element num),
      addPage (VElement page) dimensions this = (Normal tt, this')
      /\ pages this' = pages this ++ [page']
      /\ _parentDimensions page' = Some (w, h)
      /\ position_x (group page') = mul (neg w) half
      /\ position_y (group page') = mul h half
      /\ (dimensions = None -> w = data_width this /\ h = data_height this)
      /\ (pages this <> [] ->
          currPage this' = currPage this /\ _pageId this' = _pageId this).
Proof.
  intros num N this page dimensions w h.
  destruct (pages this) as [|p0 ps] eqn:Hp.
  - eexists. exists (placed_page this page dimensions true).
    split; [apply addPage_first; exact Hp|]. cbn. rewrite ?Hp.
    repeat split; try reflexivity; try contradiction;
      try (subst dimensions; reflexivity).
  - eexists. exists (placed_page this page dimensions false).
    split; [apply addPage_next; rewrite Hp; discriminate|]. cbn. rewrite ?Hp.
    repeat split; try reflexivity; try (subst dimensions; reflexivity).
Qed.

(** ** VRUI.update *)

Section UpdateProperties.
Context {num : Type} {N : Number num}.

(** [addPage] touches neither the input object, nor the update function,
    nor the [enabled] flag. *)
Lemma addPage_input_frame (page : Value num) (dimensions : option (Dim num))
    (this : VRUI num) :
  let this' := snd (addPage page dimensions this) in
  enabled this' = enabled this
  /\ inputObject this' = inputObject this
  /\ _update this' = _update this.
Proof.
  destruct page as [| |page|l|]; try (repeat split; reflexivity).
  destruct (pages this) as [|p0 ps] eqn:Hp.
  - rewrite (addPage_first this page dimensions Hp). repeat split; reflexivity.
  - rewrite addPage_next by (rewrite Hp; discriminate). repeat split; reflexivity.
Qed.

(** The controller built by the constructor is enabled, in tracked-device
    mode, and has no input object. *)
Lemma new_VRUI_tracked_device (data : Data num) (root : Value num) (this : VRUI num) :
  new_VRUI data root = Normal this ->
  enabled this = true /\ inputObject this = None /\ _update this = UpdateVR.
Proof.
  unfold new_VRUI.
  destruct (missing_or_not_positive (cfg_width data)); [discriminate|].
  destruct (missing_or_not_positive (cfg_height data)); [discriminate|].
  match goal with
  | |- context [match ?t with Normal _ => _ | Throw _ => _ end] =>
      destruct t as [template|e]; [|discriminate]
  end.
  match goal with
  | |- context [addPage root None ?c] =>
      pose proof (addPage_input_frame root None c) as Hframe;
      destruct (addPage root None c) as [[u|e] this'] eqn:Hadd
  end;
  cbn in Hframe; destruct Hframe as (He & Hi & Hu);
  destruct root; intros H; inversion H; subst; auto.
Qed.

End UpdateProperties.

(** C10.  On an enabled controller without input object, [update()] in
    tracked-device mode returns [null] and leaves the whole controller
    (ray, pages, press state, events, console) as it was.  Tracked-device
    mode is the mode of a controller just built and the mode
    [disableMouse()] switches to. *)
Theorem update_without_input_returns_null :
  forall (num : Type) (N : Number num) (this : VRUI num),
    enabled this = true ->
    inputObject this = None ->
    (_update this = UpdateVR -> update this = (Normal None, this))
    /\ (let this' := snd (disableMouse this) in
        update this' = (Normal None, this'))
    /\ (forall (data : Data num) (root : Value num) (built : VRUI num),
          new_VRUI data root = Normal built ->
          update built = (Normal None, built)).
Proof.
  intros num N this He Hi.
  assert (Hnull : forall c : VRUI num,
             enabled c = true -> inputObject c = None -> _update c = UpdateVR ->
             update c = (Normal None, c)).
  { intros c H1 H2 H3. unfold update, bind, get, ret.
    rewrite H1, H3. cbn. unfold _updateVR, bind, get, ret.
    rewrite H2. reflexivity. }
  split; [intros Hu; apply Hnull; assumption|]. split.
  - cbv zeta. apply Hnull; unfold disableMouse, bind, modify; cbn;
      [assumption | assumption | reflexivity].
  - intros data root built Hb.
    destruct (new_VRUI_tracked_device data root Hb) as (H1 & H2 & H3).
    apply Hnull; assumption.
Qed.

(** A controller just built, to which no input object was given. *)
Lemma update_without_input_returns_null_witness :
  update (empty_controller (VElement (layout 1 None ([] : list (Element float)))))
  = (Normal None, empty_controller (VElement (layout 1 None [])))
  /\ update (snd (disableMouse (empty_controller (VElement (layout 1 None ([] : list (Element float)))))))
     = (Normal None,
        snd (disableMouse (empty_controller (VElement (layout 1 None []))))).
Proof.
  pose proof (@update_without_input_returns_null float float_Number
                (empty_controller (VElement (layout 1 None ([] : list (Element float)))))
                eq_refl eq_refl) as H.
  split; [apply (proj1 H); reflexivity | apply (proj1 (proj2 H))].
Defined.

(** ** VRUI.nextPage and VRUI.prevPage *)

Section PageProperties.
Context {num : Type} {N : Number num}.

Lemma length_update_nth {A : Type} (i : nat) (f : A -> A) (l : list A) :
  length (update_nth i f l) = length l.
Proof.
  revert i. induction l as [|a l IH]; intros [|i]; cbn; try reflexivity.
  rewrite IH. reflexivity.
Qed.

Lemma nth_error_update_nth {A : Type} (i j : nat) (f : A -> A) (l : list A) :
  nth_error (update_nth i f l) j
  = if j =? i then option_map f (nth_error l j) else nth_error l j.
Proof.
  revert i j. induction l as [|a l IH]; intros [|i] [|j]; cbn; try reflexivity.
  - destruct (j =? i); reflexivity.
  - apply IH.
Qed.


Lemma prev_index (i n : nat) :
  i < n -> (i + n - 1) mod n = if i =? 0 then n - 1 else i - 1.
Proof.
  intros H. destruct (Nat.eqb_spec i 0) as [->|Hne].
  - apply Nat.mod_small. lia.
  - replace (i + n - 1) with ((i - 1) + 1 * n) by lia.
    rewrite Nat.Div0.mod_add. apply Nat.mod_small. lia.
Qed.

Lemma turn_index_lt (n i : nat) (t : Turn) : 0 < n -> turn_index n i t < n.
Proof. intros H. destruct t; cbn; apply Nat.mod_upper_bound; lia. Qed.

Lemma nextPage_turned (this : VRUI num) (i : nat) :
  current_page this i ->
  nextPage this
  = (Normal tt, turned this i (turn_index (length (pages this)) i Next)).
Proof.
  intros (Hi & Hid & Hcur & _).
  assert (Hlt := @turn_index_lt (length (pages this)) i Next ltac:(lia)).
  unfold nextPage, bind, get, modify, call_setVisible, update_page, turned.
  cbn. rewrite Hid, Hcur. cbn.
  replace (length (pages this) =? 0) with false by (symmetry; apply Nat.eqb_neq; lia).
  rewrite Z.rem_mod_nonneg by lia.
  replace (Z.of_nat i + 1)%Z with (Z.of_nat (i + 1)) by lia.
  rewrite <- Nat2Z.inj_mod. cbn.
  unfold page_at. cbn. rewrite length_update_nth.
  replace ((0 <=? Z.of_nat ((i + 1) mod length (pages this)))%Z
           && (Z.of_nat ((i + 1) mod length (pages this)) <? Z.of_nat (length (pages this)))%Z)
    with true.
  - rewrite Nat2Z.id. reflexivity.
  - symmetry. apply andb_true_iff. cbn in Hlt.
    split; [apply Z.leb_le | apply Z.ltb_lt]; lia.
Qed.

Lemma prevPage_turned (this : VRUI num) (i : nat) :
  current_page this i ->
  prevPage this
  = (Normal tt, turned this i (turn_index (length (pages this)) i Prev)).
Proof.
  intros (Hi & Hid & Hcur & _).
  assert (Hlt := @turn_index_lt (length (pages this)) i Prev ltac:(lia)).
  cbn [turn_index] in *. rewrite prev_index in * by exact Hi.
  unfold prevPage, bind, get, modify, call_setVisible, update_page, turned.
  cbn. rewrite Hid, Hcur. cbn.
  replace (length (pages this) =? 0) with false by (symmetry; apply Nat.eqb_neq; lia).
  cbn.
  assert (Hid' :
            (if (Z.rem (Z.of_nat i - 1) (Z.of_nat (length (pages this))) <? 0)%Z
             then (Z.of_nat (length (pages this)) - 1)%Z
             else Z.rem (Z.of_nat i - 1) (Z.of_nat (length (pages this))))
            = Z.of_nat (if i =? 0 then length (pages this) - 1 else i - 1)).
  { destruct (Nat.eqb_spec i 0) as [->|Hne].
    - destruct (Nat.eq_dec (length (pages this)) 1) as [H1|H1].
      + rewrite H1. reflexivity.
      + replace (Z.of_nat 0 - 1)%Z with (Z.opp 1) by reflexivity.
        rewrite Z.rem_opp_l by lia. rewrite Z.rem_small by lia.
        cbn. lia.
    - rewrite Z.rem_small by lia.
      replace (Z.of_nat i - 1 <? 0)%Z with false by (symmetry; apply Z.ltb_ge; lia).
      lia. }
  rewrite Hid'. unfold page_at. cbn. rewrite length_update_nth.
  match goal with
  | |- context [andb ?a ?b] => replace (andb a b) with true
  end.
  - rewrite Nat2Z.id. reflexivity.
  - symmetry. apply andb_true_iff.
    split; [apply Z.leb_le | apply Z.ltb_lt]; lia.
Qed.

Lemma turn_turned (this : VRUI num) (i : nat) (t : Turn) :
  current_page this i ->
  turn t this = (Normal tt, turned this i (turn_index (length (pages this)) i t)).
Proof.
  destruct t; [apply nextPage_turned | apply prevPage_turned].
Qed.

Lemma turned_current (this : VRUI num) (i i' : nat) :
  current_page this i -> i' < length (pages this) ->
  current_page (turned this i i') i'.
Proof.
  intros (Hi & Hid & Hcur & Hvis) Hi'. unfold current_page, turned. cbn.
  rewrite !length_update_nth. repeat split; try assumption.
  intros j p. rewrite !nth_error_update_nth.
  destruct (Nat.eqb_spec j i') as [->|Hj'].
  - destruct (Nat.eqb_spec i' i) as [->|Hne];
      destruct (nth_error (pages this) _); cbn; intros H; inversion H; reflexivity.
  - destruct (Nat.eqb_spec j i) as [->|Hj].
    + destruct (nth_error (pages this) i); cbn; intros H; inversion H; reflexivity.
    + intros H. rewrite (Hvis j p H). apply Nat.eqb_neq. exact Hj.
Qed.

Lemma turned_length (this : VRUI num) (i i' : nat) :
  length (pages (turned this i i')) = length (pages this).
Proof. unfold turned. cbn. rewrite !length_update_nth. reflexivity. Qed.

Lemma setVisible_same (p : Element num) (v : bool) :
  visible (group p) = v -> setVisible v p = p.
Proof.
  destruct p as [ty id st dims pd par [g gp gc x y vis] h bg en ex elts]. cbn.
  intros ->. reflexivity.
Qed.

Lemma setVisible_twice (p : Element num) (v v' : bool) :
  setVisible v (setVisible v' p) = setVisible v p.
Proof. reflexivity. Qed.

(** Turning to page [i'] and back to page [i] restores the pages. *)
Lemma turned_back (this : VRUI num) (i i' : nat) :
  current_page this i -> i' < length (pages this) ->
  turned (turned this i i') i' i = this.
Proof.
  intros (Hi & Hid & Hcur & Hvis) Hi'.
  assert (Hpages :
            update_nth i (setVisible true)
              (update_nth i' (setVisible false)
                 (update_nth i' (setVisible true)
                    (update_nth i (setVisible false) (pages this))))
            = pages this).
  { apply nth_error_ext. intros j. rewrite !nth_error_update_nth.
    destruct (nth_error (pages this) j) as [p|] eqn:Hp;
      [|destruct (j =? i), (j =? i'); reflexivity].
    specialize (Hvis j p Hp).
    destruct (Nat.eqb_spec j i) as [Hj|Hj], (Nat.eqb_spec j i') as [Hj'|Hj'];
      cbn; rewrite ?setVisible_twice; try reflexivity;
      (rewrite setVisible_same; [reflexivity | exact Hvis]). }
  unfold turned. cbn. rewrite Hpages.
  destruct this. cbn in *. subst. reflexivity.
Qed.





Lemma addPage_first_current (this : VRUI num) (page : Element num)
    (dimensions : option (Dim num)) :
  pages this = [] ->
  exists this',
    addPage (VElement page) dimensions this = (Normal tt, this')
    /\ pages this' = [placed_page this page dimensions true]
    /\ current_page this' 0.
Proof.
  intros Hp. eexists. split; [apply (addPage_first this page dimensions Hp)|].
  split; [reflexivity|]. unfold current_page. cbn.
  repeat split; try reflexivity; [lia|].
  intros [|j] p Hj; cbn in Hj; [inversion Hj; reflexivity|].
  destruct j; discriminate Hj.
Qed.




End PageProperties.



(** The same calls, evaluated: the two [nextPage] lead back to page 0,
    [prevPage] wraps around to the third page, which is current and alone
    visible. *)
Lemma page_calls_run :
  let this' :=
    snd ((addPage (VElement (layout 1 None [])) None ;;; page_ops page_calls)
           (empty_controller VNull)) in
  map (fun p => visible (group p)) (pages this') = [false; false; true]
  /\ _pageId this' = Some 2%Z /\ currPage this' = Some 2.
Proof. vm_compute. repeat split; reflexivity. Qed.

(** ** AbstractLayout.forceExit and AbstractLayout._intersect *)

Section IntersectProperties.
Context {num : Type}.

Lemma weight_child (e c : Element num) : In c (_elements e) -> weight c < weight e.
Proof.
  rewrite (weight_eq e). generalize (_elements e) as l.
  induction l as [|a l IH]; intros Hin; [destruct Hin|].
  cbn [fold_right]. destruct Hin as [->|Hin]; [lia|]. specialize (IH Hin). lia.
Qed.

(** Induction on the widget tree: a property that holds of an element as
    soon as it holds of its children holds of every element. *)
Lemma Element_tree_ind (P : Element num -> Prop) :
  (forall e, (forall c, In c (_elements e) -> P c) -> P e) ->
  forall e, P e.
Proof.
  intros Hstep e.
  assert (H : forall n e, weight e < n -> P e).
  { induction n as [|n IH]; intros e0 Hw; [lia|].
    apply Hstep. intros c Hc. apply IH.
    pose proof (weight_child e0 c Hc). lia. }
  apply (H (S (weight e))). lia.
Qed.








End IntersectProperties.



(** ** VerticalLayout.refresh *)

Section RefreshProperties.
Context {num : Type} {N : Number num}.
Variable resolveDimensions :
  Element num -> option num -> option num -> Dimensions num.

Lemma refresh_layout (mw mh : option num) (this : Element num) :
  type this = VerticalLayout ->
  let d := resolveDimensions this mw mh in
  let r :=
    refresh_elements
      (refresh resolveDimensions (Some (inner_width d)) (Some (inner_height d)))
      d (inner_width d) (_elements this)
      (mkOffset (top (padding d)) (bottom (padding d))
                (sub (b_left (padding d)) (b_right (padding d)))) in
  refresh resolveDimensions mw mh this
  = (set_elements (fst r) (set_dimensions d this), snd r).
Proof.
  destruct this as [ty id st dims pd par g h bg en ex elts]. cbn [type].
  intros ->. cbn [refresh]. unfold inner_width, inner_height. cbn [_elements].
  destruct (refresh_elements _ _ _ elts _). reflexivity.
Qed.

Lemma refresh_root (mw mh : option num) (this : Element num) :
  style (fst (refresh resolveDimensions mw mh this)) = style this
  /\ group (fst (refresh resolveDimensions mw mh this)) = group this
  /\ _dimensions (fst (refresh resolveDimensions mw mh this))
     = resolveDimensions this mw mh.
Proof.
  destruct (type this) eqn:Hty.
  - rewrite (refresh_layout mw mh this Hty). cbn. repeat split; reflexivity.
  - destruct this as [ty id st dims pd par g h bg en ex elts]. cbn in Hty. subst ty.
    repeat split; reflexivity.
Qed.

Lemma place_align_frame (d : Dimensions num) (elt : Element num) (off : Offset num) :
  let elt' := fst (fst (place_align d elt off)) in
  style elt' = style elt /\ _dimensions elt' = _dimensions elt
  /\ position_x (group elt') = position_x (group elt).
Proof.
  unfold place_align. destruct (align (style elt)); cbn; repeat split; reflexivity.
Qed.

Lemma place_position_frame (w : num) (elt : Element num) :
  style (place_position w elt) = style elt
  /\ _dimensions (place_position w elt) = _dimensions elt
  /\ position_y (group (place_position w elt)) = position_y (group elt).
Proof.
  unfold place_position. destruct (position (style elt)); cbn; repeat split; reflexivity.
Qed.

Section Loop.
Variable rf : Element num -> Element num * list string.
Variable d : Dimensions num.
Variable w : num.



End Loop.

Lemma firstn_succ {A : Type} (l : list A) (k : nat) (a : A) :
  nth_error l k = Some a -> firstn (S k) l = firstn k l ++ [a].
Proof.
  revert k. induction l as [|b l IH]; intros [|k] H; try discriminate H.
  - cbn in H. inversion H. reflexivity.
  - cbn [firstn app]. f_equal. apply IH. exact H.
Qed.



End RefreshProperties.






(** ** VRUI._visit and VRUI._addWithExpansion *)

Section ExpansionProperties.
Context {num : Type} {N : Number num}.

Lemma in_children_of (path p : list nat) (elt c : Element num) :
  In (p, c) (children_of path elt) ->
  instanceof_AbstractLayout elt = true /\ In c (_elements elt).
Proof.
  unfold children_of. destruct (instanceof_AbstractLayout elt); [|intros []].
  intros H. split; [reflexivity|].
  apply in_map_iff in H. destruct H as ([i e] & Heq & Hin). cbn in Heq.
  inversion Heq; subst. clear Heq. revert Hin. generalize 0 as k.
  induction (_elements elt) as [|a l IH]; intros k Hin; [destruct Hin|].
  cbn in Hin. destruct Hin as [Heq|Hin]; [inversion Heq; left; reflexivity|].
  right. apply (IH (S k) Hin).
Qed.

(** The search answers null when the callback accepts no element of the
    queue and no descendant of an element of the queue. *)
Lemma visit_loop_none (callback : Element num -> bool)
    (visited : list (list nat * Element num)) :
  (forall p e, In (p, e) visited ->
               callback e = false /\ forall d, descendant e d -> callback d = false) ->
  visit_loop callback visited = None.
Proof.
  funelim (visit_loop callback visited); intros Hq; [reflexivity|].
  destruct (Hq path elt (or_introl eq_refl)) as (Helt & Hdesc).
  rewrite Helt. apply H. intros p e Hin. apply in_app_or in Hin.
  destruct Hin as [Hin|Hin].
  - apply (Hq p e). right. exact Hin.
  - apply in_children_of in Hin. destruct Hin as (Hl & Hin). split.
    + apply Hdesc. apply descendant_child; assumption.
    + intros d Hd. apply Hdesc. eapply descendant_step; eassumption.
Qed.

Lemma visit_none (layout : Element num) (callback : Element num -> bool) :
  (forall d, descendant layout d -> callback d = false) ->
  _visit layout callback = None.
Proof.
  intros H. unfold _visit.
  destruct (instanceof_AbstractLayout layout) eqn:Hl; [|reflexivity].
  cbn [negb]. apply visit_loop_none. intros p e Hin.
  apply in_children_of in Hin. destruct Hin as (_ & Hin). split.
  - apply H. apply descendant_child; assumption.
  - intros d Hd. apply H. eapply descendant_step; eassumption.
Qed.

Lemma subtree_app (p q : list nat) (root : Element num) :
  subtree (p ++ q) root
  = match subtree p root with
    | Some e => subtree q e
    | None => None
    end.
Proof.
  revert root. induction p as [|i p IH]; intros root; [reflexivity|].
  cbn [app subtree]. destruct (nth_error (_elements root) i); [apply IH | reflexivity].
Qed.

Lemma in_indexed {A : Type} (l : list A) (k i : nat) (a : A) :
  In (i, a) (indexed k l) -> k <= i /\ nth_error l (i - k) = Some a.
Proof.
  revert k. induction l as [|b l IH]; intros k Hin; [destruct Hin|].
  cbn in Hin. destruct Hin as [Heq|Hin].
  - inversion Heq; subst. rewrite Nat.sub_diag. split; [lia | reflexivity].
  - destruct (IH (S k) Hin) as (Hle & Hnth). split; [lia|].
    replace (i - k) with (S (i - S k)) by lia. exact Hnth.
Qed.

Lemma children_of_subtree (root : Element num) (path p : list nat) (elt c : Element num) :
  subtree path root = Some elt ->
  In (p, c) (children_of path elt) ->
  subtree p root = Some c.
Proof.
  intros Hsub Hin. unfold children_of in Hin.
  destruct (instanceof_AbstractLayout elt); [|destruct Hin].
  apply in_map_iff in Hin. destruct Hin as ([i e] & Heq & Hin). cbn in Heq.
  inversion Heq; subst. apply in_indexed in Hin. destruct Hin as (_ & Hnth).
  rewrite Nat.sub_0_r in Hnth.
  rewrite subtree_app, Hsub. cbn [subtree]. rewrite Hnth. reflexivity.
Qed.

(** The search answers the path of an element the callback accepts. *)
Lemma visit_loop_found (root : Element num) (callback : Element num -> bool)
    (visited : list (list nat * Element num)) (found : list nat) :
  (forall p e, In (p, e) visited -> subtree p root = Some e) ->
  visit_loop callback visited = Some found ->
  exists e, subtree found root = Some e /\ callback e = true.
Proof.
  funelim (visit_loop callback visited); intros Hq Hfound; [discriminate Hfound|].
  destruct (callback elt) eqn:Helt.
  - inversion Hfound; subst. exists elt. split; [|exact Helt].
    apply Hq. left. reflexivity.
  - apply H; [|exact Hfound]. intros p e Hin. apply in_app_or in Hin.
    destruct Hin as [Hin|Hin].
    + apply Hq. right. exact Hin.
    + eapply children_of_subtree; [|exact Hin]. apply Hq. left. reflexivity.
Qed.

(** [_visit] answers the path of an element reached from [layout] that
    the callback accepts. *)
Lemma visit_found (layout : Element num) (callback : Element num -> bool)
    (found : list nat) :
  _visit layout callback = Some found ->
  exists e, subtree found layout = Some e /\ callback e = true.
Proof.
  unfold _visit. destruct (instanceof_AbstractLayout layout); [|discriminate].
  cbn [negb]. apply visit_loop_found. intros p e Hin.
  eapply children_of_subtree; [|exact Hin]. reflexivity.
Qed.

Lemma strict_eqb_false (id : option string) (layoutID : string) :
  id <> Some layoutID -> strict_eqb id (Some layoutID) = false.
Proof.
  destruct id as [s|]; [|reflexivity]. cbn. intros H.
  apply String.eqb_neq. intros ->. apply H. reflexivity.
Qed.

Lemma nth_error_last_page (l : list (Element num)) (page : Element num) :
  nth_error l (length l - 1) = Some page -> (0 <? length l) = true.
Proof.
  destruct l; [discriminate|reflexivity].
Qed.

End ExpansionProperties.

(** C1.  A [layoutID] that no element below the searched page declares
    makes [_addWithExpansion] throw: [_visit] answers null, and the test
    [!( lastPage instanceof AbstractLayout )], which comes before the
    warning, throws an Error on null.  No warning is printed.  When the
    controller has a page the state is left as it was; when it has none,
    the page cloned from the template has been added before the throw. *)
Theorem unresolved_layoutID_throws :
  forall (num : Type) (N : Number num) (this : VRUI num)
         (template element : Element num) (layoutID : string),
    data_mode_template this = VElement template ->
    instanceof_AbstractLayout template = true ->
    layoutID <> "" ->
    (forall lastPage,
        nth_error (pages this) (length (pages this) - 1) = Some lastPage ->
        (forall d, descendant lastPage d -> data_id d <> Some layoutID) ->
        _addWithExpansion element (Some layoutID) this
        = (Throw (Error "VRUI.add(): trying to add element in an element that is not an instance of VRUI.AbstractLayout!"),
           this))
    /\ (pages this = [] ->
        (forall d, descendant template d -> data_id d <> Some layoutID) ->
        _addWithExpansion element (Some layoutID) this
        = (Throw (Error "VRUI.add(): trying to add element in an element that is not an instance of VRUI.AbstractLayout!"),
           snd (addPage (VElement (clone template)) None this))).
Proof.
  intros num N this template element layoutID Ht Hl Hid.
  assert (Htruthy : truthy_string (Some layoutID) = true).
  { cbn. apply negb_true_iff. apply String.eqb_neq. exact Hid. }
  split.
  - intros lastPage Hlast Hnone.
    unfold _addWithExpansion, bind, get. rewrite Ht, Hl. cbn [negb].
    rewrite (nth_error_last_page _ Hlast). unfold ret at 1. rewrite Htruthy.
    unfold visit, load, bind, get, deref. cbn [ref_page ref_path].
    rewrite Hlast. cbn [subtree]. unfold ret at 1.
    rewrite visit_none; [reflexivity|].
    intros d Hd. apply strict_eqb_false. apply Hnone. exact Hd.
  - intros Hp Hnone.
    unfold _addWithExpansion. unfold bind at 1, get at 1. rewrite Ht, Hl. cbn [negb].
    rewrite Hp. cbn [length Nat.ltb Nat.leb].
    unfold bind at 1. unfold bind at 1.
    rewrite (addPage_first this (clone template) None Hp). cbn [snd].
    unfold ret at 1. rewrite Htruthy.
    unfold bind at 1. unfold visit, load, bind, get, deref. cbn.
    unfold ret at 1.
    rewrite visit_none; [reflexivity|].
    intros d Hd. apply strict_eqb_false. apply Hnone.
    inversion Hd as [a c Hla Hin|a c d0 Hla Hin Hd0]; subst.
    + apply descendant_child; assumption.
    + eapply descendant_step; eassumption.
Qed.

Lemma unresolved_layoutID_throws_witness :
  _addWithExpansion (view 10 1%float) (Some "list") grid_controller
  = (Throw (Error "VRUI.add(): trying to add element in an element that is not an instance of VRUI.AbstractLayout!"),
     grid_controller).
Proof.
  refine (proj1 (@unresolved_layoutID_throws float float_Number grid_controller
                   grid_template (view 10 1%float) "list" eq_refl eq_refl _)
            _ eq_refl _).
  - discriminate.
  - intros d Hd.
    inversion Hd as [a c Hl Hin|a c d0 Hl Hin Hd0]; subst.
    + destruct Hin as [<-|[]]. discriminate.
    + destruct Hin as [<-|[]].
      inversion Hd0 as [a c Hl0 Hin0|a c d1 Hl0 Hin0 Hd1]; subst; destruct Hin0.
Defined.

Section PaginationProperties.
Context {num : Type} {N : Number num}.

Lemma nth_error_middle {A : Type} (l r : list A) (x : A) :
  nth_error (l ++ x :: r) (length l) = Some x.
Proof. induction l as [|a l IH]; [reflexivity | exact IH]. Qed.

Lemma update_nth_middle {A : Type} (f : A -> A) (l r : list A) (x : A) :
  update_nth (length l) f (l ++ x :: r) = l ++ f x :: r.
Proof.
  induction l as [|a l IH]; [reflexivity|]. cbn [length app update_nth].
  rewrite IH. reflexivity.
Qed.

Lemma length_last_index {A : Type} (l : list A) (x : A) :
  length (l ++ [x]) - 1 = length l.
Proof. rewrite length_app. cbn. lia. Qed.

(** One call of [_addWithExpansion] without layoutID on a controller that
    has a page: the element goes to the last page [P], also when [P] is
    full and a new page is created. *)
Lemma addWithExpansion_last_page (this : VRUI num) (T P e : Element num)
    (ps : list (Element num)) :
  expansion_ready this T ->
  pages this = ps ++ [P] ->
  instanceof_AbstractLayout P = true ->
  _addWithExpansion e None this
  = (Normal tt,
     if isFull P then
       set_pageGroup (pageGroup_with this (clone T))
         (set_pages (ps ++ [added P e; placed_page this (clone T) None false]) this)
     else set_pages (ps ++ [added P e]) this).
Proof.
  intros (Hmode & Ht & Hl) Hp HP.
  unfold _addWithExpansion, bind, get. rewrite Ht, Hl. cbn [negb].
  rewrite Hp. rewrite length_last_index.
  replace (0 <? length (ps ++ [P])) with true
    by (destruct ps; reflexivity).
  unfold ret at 1. cbn [truthy_string]. unfold ret at 1.
  unfold deref. cbn [ref_page ref_path]. rewrite Hp, nth_error_middle.
  cbn [subtree]. rewrite HP. cbn [negb].
  destruct (isFull P) eqn:Hfull.
  - rewrite addPage_next by (rewrite Hp; destruct ps; discriminate).
    unfold ret at 1. unfold load, bind, get, deref. cbn [ref_page ref_path pages set_pages set_pageGroup].
    rewrite Hp, <- app_assoc. cbn [app]. rewrite nth_error_middle. cbn [subtree].
    unfold ret at 1. unfold AbstractLayout_add. cbn [nth length Nat.ltb Nat.leb _addItems _addItem group_add].
    unfold update_page, modify, ret. cbn [ref_page ref_path pages set_pages set_pageGroup update_at].
    rewrite update_nth_middle. reflexivity.
  - unfold ret at 1. unfold load, bind, get, deref. cbn [ref_page ref_path].
    rewrite Hp, nth_error_middle. cbn [subtree].
    unfold ret at 1. unfold AbstractLayout_add. cbn [nth length Nat.ltb Nat.leb _addItems _addItem group_add].
    unfold update_page, modify, ret. cbn [ref_page ref_path update_at].
    rewrite Hp, update_nth_middle. reflexivity.
Qed.

(** Without page, [_addWithExpansion] first adds the clone of the template
    as page 0 and then goes on as it does on a controller that has this
    page. *)
Lemma addWithExpansion_no_page (this : VRUI num) (T e : Element num) :
  expansion_ready this T ->
  pages this = [] ->
  _addWithExpansion e None this
  = _addWithExpansion e None (snd (addPage (VElement (clone T)) None this)).
Proof.
  intros (Hmode & Ht & Hl) Hp.
  rewrite (addPage_first this (clone T) None Hp). cbn [snd].
  unfold _addWithExpansion, bind, get.
  cbn [data_mode_template set_currPage set_pageId set_pageGroup set_pages pages].
  rewrite Ht, Hl. cbn [negb]. rewrite Hp. cbn [length Nat.ltb Nat.leb Nat.sub].
  rewrite (addPage_first this (clone T) None Hp).
  reflexivity.
Qed.

Lemma VRUI_add_element (this : VRUI num) (T e : Element num) :
  expansion_ready this T ->
  VRUI_add (VElement e) None this = _addWithExpansion e None this.
Proof.
  intros (Hmode & _). unfold VRUI_add, _add, bind, get. rewrite Hmode. reflexivity.
Qed.

Lemma filled_added (P T e : Element num) (done : list (Element num)) :
  filled P T done -> filled (added P e) T (done ++ [e]).
Proof.
  intros (HP & Hg & He). unfold filled, added, attached. cbn.
  repeat split; [exact HP | exact Hg|].
  rewrite He, map_app, <- app_assoc, Hg. reflexivity.
Qed.

Lemma filled_isFull (P T : Element num) (done : list (Element num)) :
  filled P T done ->
  isFull P = isFull (set_elements (_elements T ++ done) T).
Proof.
  intros (_ & _ & He). rewrite !isFull_heights. unfold heights. cbn [_elements set_elements].
  rewrite He, !map_app, map_map. reflexivity.
Qed.

Lemma placed_page_filled (this : VRUI num) (T : Element num) (v : bool) :
  instanceof_AbstractLayout T = true ->
  filled (placed_page this (clone T) None v) T [].
Proof.
  intros Hl. unfold filled, placed_page, clone. cbn. rewrite app_nil_r.
  repeat split; try reflexivity. exact Hl.
Qed.

Lemma adds_app (es es' : list (Element num)) (this : VRUI num) :
  adds (es ++ es') this
  = match adds es this with
    | (Normal _, this') => adds es' this'
    | (Throw e, this') => (Throw e, this')
    end.
Proof.
  revert this. induction es as [|e es IH]; intros this; [reflexivity|].
  cbn [app adds]. unfold bind.
  destruct (VRUI_add (VElement e) None this) as [[u|ex] this1]; [apply IH | reflexivity].
Qed.

(** While the last page is not full, the elements go to it. *)
Lemma adds_not_full (T : Element num) (rest : list (Element num)) :
  forall (this : VRUI num) (P : Element num) (done : list (Element num)),
    expansion_ready this T ->
    pages this = [P] ->
    filled P T done ->
    (forall j, j < length rest ->
               isFull (set_elements (_elements T ++ done ++ firstn j rest) T) = false) ->
    exists this' P',
      adds rest this = (Normal tt, this')
      /\ expansion_ready this' T
      /\ pages this' = [P']
      /\ filled P' T (done ++ rest).
Proof.
  induction rest as [|e rest IH]; intros this P done Hready Hp Hfilled Hcap.
  - exists this, P. rewrite app_nil_r.
    split; [reflexivity | split; [exact Hready | split; [exact Hp | exact Hfilled]]].
  - cbn [adds]. unfold bind. rewrite (VRUI_add_element e Hready).
    rewrite (@addWithExpansion_last_page this T P e [] Hready Hp (proj1 Hfilled)).
    rewrite (filled_isFull Hfilled).
    specialize (Hcap 0 ltac:(cbn; lia)) as Hnow. cbn [firstn] in Hnow.
    rewrite app_nil_r in Hnow. rewrite Hnow.
    destruct (IH (set_pages ([] ++ [added P e]) this) (added P e) (done ++ [e]))
      as (this' & P' & Hrun & Hready' & Hp' & Hfilled').
    + exact Hready.
    + reflexivity.
    + apply filled_added. exact Hfilled.
    + intros j Hj. rewrite <- app_assoc. cbn [app].
      apply (Hcap (S j)). cbn. lia.
    + exists this', P'. rewrite <- app_assoc in Hfilled'.
      split; [exact Hrun | split; [exact Hready' | split; [exact Hp' | exact Hfilled']]].
Qed.

(** The element added when the last page is full goes to that page as
    well; the page created for it stays as the template is. *)
Lemma add_when_full (T : Element num) (this : VRUI num) (P e : Element num)
    (done : list (Element num)) :
  expansion_ready this T ->
  pages this = [P] ->
  filled P T done ->
  isFull (set_elements (_elements T ++ done) T) = true ->
  exists this' P' P1,
    adds [e] this = (Normal tt, this')
    /\ pages this' = [P'; P1]
    /\ filled P' T (done ++ [e])
    /\ _elements P1 = _elements T.
Proof.
  intros Hready Hp Hfilled Hfull.
  cbn [adds]. unfold bind. rewrite (VRUI_add_element e Hready).
  rewrite (@addWithExpansion_last_page this T P e [] Hready Hp (proj1 Hfilled)).
  rewrite (filled_isFull Hfilled), Hfull.
  eexists. exists (added P e), (placed_page this (clone T) None false).
  split; [reflexivity|]. split; [reflexivity|].
  split; [apply filled_added; exact Hfilled | reflexivity].
Qed.

End PaginationProperties.

(** C2.  On a controller without page whose template has room for
    exactly [k] more elements, the [k + 1] calls of [add] return normally
    and leave 2 pages, but the element that finds page 0 full is added to
    page 0: page 0 ends with the children of the template followed by
    all the [k + 1] elements, and page 1 with the children of the
    template only.  (With a layoutID the insertion target is looked up
    again in the new page; without one it stays the full page.) *)
Theorem expansion_overfills_first_page :
  forall (num : Type) (N : Number num) (this : VRUI num) (T : Element num)
         (es : list (Element num)) (k : nat),
    expansion_ready this T ->
    pages this = [] ->
    length es = S k ->
    (forall j, j <= k ->
               isFull (set_elements (_elements T ++ firstn j es) T) = (j =? k)) ->
    exists (this' : VRUI num) (page0 page1 : Element num),
      adds es this = (Normal tt, this')
      /\ pages this' = [page0; page1]
      /\ _elements page0 = _elements T ++ map (attached T) es
      /\ _elements page1 = _elements T.
Proof.
  intros num N this T es k Hready Hp Hlen Hcap.
  set (this1 := snd (addPage (VElement (clone T)) None this)).
  assert (Hstart : adds es this = adds es this1).
  { destruct es as [|e0 rest]; [discriminate Hlen|]. cbn [adds]. unfold bind.
    rewrite (VRUI_add_element e0 Hready).
    rewrite (addWithExpansion_no_page e0 Hready Hp). fold this1.
    assert (Hready1 : expansion_ready this1 T).
    { subst this1. rewrite (addPage_first this (clone T) None Hp). exact Hready. }
    rewrite <- (VRUI_add_element e0 Hready1). reflexivity. }
  assert (Hready1 : expansion_ready this1 T).
  { subst this1. rewrite (addPage_first this (clone T) None Hp). exact Hready. }
  assert (Hp1 : pages this1 = [placed_page this (clone T) None true]).
  { subst this1. rewrite (addPage_first this (clone T) None Hp). reflexivity. }
  assert (Hfilled0 : filled (placed_page this (clone T) None true) T [])
    by (apply placed_page_filled; apply Hready).
  assert (Hsplit : exists last, es = firstn k es ++ [last]).
  { destruct (nth_error es k) as [last|] eqn:Hk.
    - exists last. rewrite <- (firstn_succ es k Hk).
      symmetry. apply firstn_all2. lia.
    - apply nth_error_None in Hk. lia. }
  destruct Hsplit as (last & Hes).
  destruct (@adds_not_full num N T (firstn k es) this1 _ [] Hready1 Hp1 Hfilled0)
    as (this2 & P2 & Hrun2 & Hready2 & Hp2 & Hfilled2).
  { intros j Hj. rewrite length_firstn in Hj. cbn [app].
    rewrite firstn_firstn. replace (Nat.min j k) with j by lia.
    rewrite (Hcap j ltac:(lia)). apply Nat.eqb_neq. lia. }
  cbn [app] in Hfilled2.
  destruct (@add_when_full num N T this2 P2 last (firstn k es) Hready2 Hp2 Hfilled2)
    as (this3 & P3 & P1 & Hrun3 & Hp3 & Hfilled3 & Hel1).
  { rewrite (Hcap k (le_n k)). apply Nat.eqb_refl. }
  exists this3, P3, P1. rewrite Hstart.
  split; [rewrite Hes, adds_app, Hrun2; exact Hrun3|].
  split; [exact Hp3|]. split; [|exact Hel1].
  rewrite <- Hes in Hfilled3. apply Hfilled3.
Qed.

Lemma expansion_overfills_first_page_witness :
  exists (this' : VRUI float) (page0 page1 : Element float),
    adds half_views (empty_controller (VElement empty_template)) = (Normal tt, this')
    /\ pages this' = [page0; page1]
    /\ _elements page0
       = _elements empty_template ++ map (attached empty_template) half_views
    /\ _elements page1 = _elements empty_template.
Proof.
  apply (@expansion_overfills_first_page float float_Number
           (empty_controller (VElement empty_template)) empty_template half_views 2).
  - repeat split; reflexivity.
  - reflexivity.
  - reflexivity.
  - intros j Hj. destruct j as [|[|[|j]]]; [reflexivity | reflexivity | reflexivity | lia].
Defined.

(** The same run, evaluated: page 0 ends with 3 children, page 1 with
    none, and page 0 is still the visible page. *)
Lemma pagination_run :
  let this' := snd (adds half_views (empty_controller (VElement empty_template))) in
  map (fun p => (length (_elements p), visible (group p))) (pages this')
  = [(3, true); (0, false)].
Proof. vm_compute. reflexivity. Qed.

(** With a layoutID, the element that finds the target full goes to the
    target of the new page. *)
Lemma pagination_run_with_layoutID :
  let add_to_grid (e : Element float) := VRUI_add (VElement e) (Some "grid") in
  let this' :=
    snd ((add_to_grid (view 10 0.5%float) ;;; add_to_grid (view 11 0.5%float) ;;;
          add_to_grid (view 12 0.5%float))
           (empty_controller (VElement grid_template))) in
  map (fun p => map (fun c => length (_elements c)) (_elements p)) (pages this')
  = [[2]; [1]].
Proof. vm_compute. reflexivity. Qed.

(** * Further properties of the code *)

(** ** AbstractLayout.add and AbstractLayout._addItem *)

Section AddMoreProperties.
Context {num : Type}.

Lemma addItems_stops_at_invalid (elts : list (Element num)) (v : Value num)
    (rest : list (Value num)) (this : Element num) :
  (forall e, v <> VElement e) ->
  exists e this',
    _addItems (map (@VElement num) elts ++ v :: rest) this = (Throw e, this')
    /\ _elements this' = _elements this ++ map (attached this) elts
    /\ gchildren (group this')
       = gchildren (group this) ++ map (fun c => gid (group c)) elts
    /\ gid (group this') = gid (group this).
Proof.
  intros Hv. revert this. induction elts as [|elt elts IH]; intros this.
  - exists (Error "AbstractLayout: addView(): provided element is not an instance of Element"), this.
    cbn [map app _addItems]. rewrite !app_nil_r.
    destruct v as [| |e|l|]; try (repeat split; reflexivity).
    exfalso. apply (Hv e). reflexivity.
  - cbn [map app _addItems _addItem group_add].
    destruct (IH (set_group (set_gchildren (gchildren (group this) ++ [gid (group elt)]) (group this))
                    (set_elements (_elements this ++ [attached this elt]) this)))
      as (e & this' & Hrun & Hel & Hg & Hid).
    exists e, this'. split; [exact Hrun|]. cbn in Hel, Hg, Hid.
    rewrite Hel, Hg, Hid, <- !app_assoc. repeat split; reflexivity.
Qed.

End AddMoreProperties.


(** X2.  [add] does not roll back: when an argument is not an Element,
    [add] throws, and the Elements passed before that argument have
    already been appended and attached. *)
Theorem add_keeps_items_before_invalid :
  forall (num : Type) (this : Element num) (elts : list (Element num))
         (v : Value num) (rest : list (Value num)),
    (forall e, v <> VElement e) ->
    exists e this',
      AbstractLayout_add (map (@VElement num) elts ++ v :: rest) this = (Throw e, this')
      /\ _elements this' = _elements this ++ map (attached this) elts
      /\ gchildren (group this')
         = gchildren (group this) ++ map (fun c => gid (group c)) elts.
Proof.
  intros num this elts v rest Hv.
  destruct (addItems_stops_at_invalid elts rest this Hv) as (e & this' & Hrun & Hel & Hg & _).
  unfold AbstractLayout_add.
  destruct elts as [|elt elts].
  - cbn [map app nth length].
    destruct v as [| |e0|l|];
      try (eexists; exists this; cbn [map]; rewrite !app_nil_r;
           repeat split; reflexivity).
    exfalso. apply (Hv e0). reflexivity.
  - exists e, this'. cbn [map app nth length].
    split; [exact Hrun | split; assumption].
Qed.

(** A layout with one child, and [add( a, 'text', b )]: [a] is added,
    [b] is not. *)
Lemma add_keeps_items_before_invalid_witness :
  exists e this',
    AbstractLayout_add
      (map (@VElement float) [view 10 1%float] ++ VOther :: [VElement (view 11 1%float)])
      (layout 1 None [view 2 1%float])
    = (Throw e, this')
    /\ _elements this'
       = _elements (layout 1 None [view 2 1%float])
         ++ map (attached (layout 1 None [view 2 1%float])) [view 10 1%float]
    /\ gchildren (group this')
       = gchildren (group (layout 1 None [view 2 1%float]))
         ++ map (fun c => gid (group c)) [view 10 1%float].
Proof.
  apply (@add_keeps_items_before_invalid float (layout 1 None [view 2 1%float])
           [view 10 1%float] VOther [VElement (view 11 1%float)]).
  intros e. discriminate.
Defined.

(** ** AbstractLayout.forceExit *)

Section ForceExitProperties.
Context {num : Type}.

Lemma unhover_elements (e : Element num) :
  _elements (unhover e) = map unhover (_elements e).
Proof. destruct e. reflexivity. Qed.

Lemma unhover_set_hover (h : bool) (e : Element num) :
  unhover (set_hover h e) = unhover e.
Proof. destruct e. reflexivity. Qed.

Lemma forceExit_set_hover (h : bool) (e : Element num) :
  forceExit (set_hover h e) = set_hover h (forceExit e).
Proof. destruct e. reflexivity. Qed.

Lemma forceExit_frame (e : Element num) :
  type (forceExit e) = type e /\ hover (forceExit e) = hover e
  /\ group (forceExit e) = group e.
Proof. destruct e. repeat split; reflexivity. Qed.

Lemma unhover_forceExit (e : Element num) : unhover (forceExit e) = unhover e.
Proof.
  induction e as [e IH] using Element_tree_ind.
  destruct e as [ty id st dims pd par g h bg en ex elts].
  cbn [forceExit unhover]. f_equal. rewrite map_map.
  apply map_ext_in. intros c Hc. rewrite unhover_set_hover.
  destruct (type c); [apply (IH c Hc) | reflexivity].
Qed.

Lemma forceExit_idempotent (e : Element num) : forceExit (forceExit e) = forceExit e.
Proof.
  induction e as [e IH] using Element_tree_ind.
  destruct e as [ty id st dims pd par g h bg en ex elts].
  cbn [forceExit]. f_equal. rewrite map_map.
  apply map_ext_in. intros c Hc.
  destruct (type c) eqn:Hty.
  - replace (type (set_hover false (forceExit c))) with VerticalLayout
      by (destruct c; cbn in *; congruence).
    rewrite forceExit_set_hover, (IH c Hc). destruct (forceExit c). reflexivity.
  - replace (type (set_hover false c)) with ElementView
      by (destruct c; cbn in *; congruence).
    destruct c. reflexivity.
Qed.

End ForceExitProperties.

(** X3.  [forceExit()] changes nothing but [hover] flags below the
    layout: the tree is the same once the flags are erased, the [hover]
    flag of the layout itself is kept, and calling it twice is calling it
    once. *)
Theorem forceExit_only_clears_hover :
  forall (num : Type) (this : Element num),
    unhover (forceExit this) = unhover this
    /\ hover (forceExit this) = hover this
    /\ forceExit (forceExit this) = forceExit this.
Proof.
  intros num this. split; [apply unhover_forceExit|].
  split; [apply forceExit_frame | apply forceExit_idempotent].
Qed.

(** ** VerticalLayout.refresh, further *)

Section RefreshMoreProperties.
Context {num : Type} {N : Number num}.
Variable resolveDimensions :
  Element num -> option num -> option num -> Dimensions num.

Lemma declared_set_position_y (y : num) (e : Element num) :
  declared (set_group (set_position_y y (group e)) e) = declared e.
Proof. destruct e. reflexivity. Qed.

Lemma declared_set_position_x (x : num) (e : Element num) :
  declared (set_group (set_position_x x (group e)) e) = declared e.
Proof. destruct e. reflexivity. Qed.

Lemma declared_place_align (d : Dimensions num) (e : Element num) (off : Offset num) :
  declared (fst (fst (place_align d e off))) = declared e.
Proof.
  unfold place_align. destruct (align (style e)); cbn [fst];
    rewrite ?declared_set_position_y; reflexivity.
Qed.

Lemma declared_place_position (w : num) (e : Element num) :
  declared (place_position w e) = declared e.
Proof.
  unfold place_position. destruct (position (style e));
    rewrite ?declared_set_position_x; reflexivity.
Qed.

Lemma declared_refresh_elements
    (rf : Element num -> Element num * list string) (d : Dimensions num) (w : num)
    (elts : list (Element num)) (off : Offset num) :
  (forall c, In c elts -> declared (fst (rf c)) = declared c) ->
  map declared (fst (refresh_elements rf d w elts off)) = map declared elts.
Proof.
  revert off. induction elts as [|e rest IH]; intros off H; [reflexivity|].
  cbn [refresh_elements].
  pose proof (H e (or_introl eq_refl)) as He.
  destruct (rf e) as [e1 w1]. cbn [fst] in He.
  pose proof (declared_place_align d e1 off) as Hpa.
  destruct (place_align d e1 off) as [[e2 off'] w2]. cbn [fst] in Hpa.
  specialize (IH off' (fun c Hc => H c (or_intror Hc))).
  destruct (refresh_elements rf d w rest off') as [rest' w3]. cbn [fst map] in IH |- *.
  rewrite declared_place_position, Hpa, He, IH. reflexivity.
Qed.

Lemma declared_refresh (mw mh : option num) (e : Element num) :
  declared (fst (refresh resolveDimensions mw mh e)) = declared e.
Proof.
  revert mw mh. induction e as [e IH] using Element_tree_ind. intros mw mh.
  destruct (type e) eqn:Hty.
  - rewrite (refresh_layout resolveDimensions mw mh e Hty). cbn [fst].
    destruct e as [ty id st dims pd par g h bg en ex elts]. cbn [declared set_elements set_dimensions].
    f_equal. apply declared_refresh_elements.
    intros c Hc. apply (IH c Hc).
  - destruct e as [ty id st dims pd par g h bg en ex elts]. cbn in Hty. subst ty.
    reflexivity.
Qed.

End RefreshMoreProperties.

Lemma declared_elements {num : Type} {N : Number num} (e : Element num) :
  _elements (declared e) = map declared (_elements e).
Proof. destruct e. reflexivity. Qed.

Lemma declared_root {num : Type} {N : Number num} (e : Element num) :
  type (declared e) = type e /\ data_id (declared e) = data_id e
  /\ style (declared e) = style e /\ hover (declared e) = hover e
  /\ visible (group (declared e)) = visible (group e).
Proof. destruct e. repeat split; reflexivity. Qed.

(** X4.  [refresh] computes dimensions and positions and nothing else:
    once the computed dimensions and the group positions are erased, the
    refreshed tree is the tree it was given.  No child is added, dropped
    or moved in the sequence, and no style, id, visibility or hover flag
    changes, at any depth; in particular the children keep their number
    and their styles, in order. *)
Theorem refresh_only_computes_geometry :
  forall (num : Type) (N : Number num)
         (resolveDimensions : Element num -> option num -> option num -> Dimensions num)
         (maxEltWidth maxEltHeight : option num) (this : Element num),
    let this' := fst (refresh resolveDimensions maxEltWidth maxEltHeight this) in
    declared this' = declared this
    /\ length (_elements this') = length (_elements this)
    /\ map (fun c => style c) (_elements this') = map (fun c => style c) (_elements this)
    /\ visible (group this') = visible (group this).
Proof.
  intros num N R mw mh this this'.
  assert (H : declared this' = declared this) by apply declared_refresh.
  split; [exact H|].
  assert (Hel : map declared (_elements this') = map declared (_elements this)).
  { rewrite <- !declared_elements, H. reflexivity. }
  split; [|split].
  - rewrite <- (length_map declared (_elements this')), Hel. apply length_map.
  - transitivity (map (fun c => style c) (map declared (_elements this'))).
    + rewrite map_map. apply map_ext. intros c. symmetry. apply declared_root.
    + rewrite Hel, map_map. apply map_ext. intros c. apply declared_root.
  - transitivity (visible (group (declared this'))).
    + symmetry. apply declared_root.
    + rewrite H. apply declared_root.
Qed.

Section AlignmentProperties.
Context {num : Type} {N : Number num}.
Variable rf : Element num -> Element num * list string.
Variable d : Dimensions num.
Variable w : num.
Hypothesis rf_style : forall c, style (fst (rf c)) = style c.
Hypothesis rf_group : forall c, group (fst (rf c)) = group c.

Lemma is_top_place (e : Element num) (off : Offset num) :
  is_top (place_position w (fst (fst (place_align d e off)))) = is_top e
  /\ is_bottom (place_position w (fst (fst (place_align d e off)))) = is_bottom e.
Proof.
  unfold is_top, is_bottom.
  rewrite (proj1 (place_position_frame w _)), (proj1 (place_align_frame d e off)).
  split; reflexivity.
Qed.

(** The vertical offset of every child after the loop, whatever the
    alignments. *)
Lemma refresh_elements_alignment (elts : list (Element num)) (off : Offset num)
    (i : nat) (c c' : Element num) :
  nth_error elts i = Some c ->
  nth_error (fst (refresh_elements rf d w elts off)) i = Some c' ->
  let cs := firstn i (fst (refresh_elements rf d w elts off)) in
  match align (style c) with
  | AlignTop =>
      position_y (group c')
      = neg (add (fold_left advance (filter is_top cs) (o_top off))
                 (top (margin (_dimensions c'))))
  | AlignBottom =>
      position_y (group c')
      = add (sub (add (fold_left advance_bottom (filter is_bottom cs) (o_bottom off))
                      (bottom (margin (_dimensions c'))))
                 (height d))
            (height (_dimensions c'))
  | _ => position_y (group c') = position_y (group c)
  end.
Proof.
  revert off i. induction elts as [|e rest IH]; intros off i Hc Hc'.
  - destruct i; discriminate Hc.
  - cbn [refresh_elements] in Hc' |- *.
    pose proof (rf_style e) as Hst. pose proof (rf_group e) as Hg.
    destruct (rf e) as [e1 w1]. cbn [fst] in Hst, Hg.
    pose proof (is_top_place e1 off) as (Htop & Hbot).
    pose proof (place_align_frame d e1 off) as Hpa.
    pose proof (place_position_frame w (fst (fst (place_align d e1 off)))) as (_ & Hpd & Hpy).
    assert (Hoff : o_top (snd (fst (place_align d e1 off)))
                   = (if is_top e1 then advance (o_top off) e1 else o_top off)
                   /\ o_bottom (snd (fst (place_align d e1 off)))
                      = (if is_bottom e1 then advance_bottom (o_bottom off) e1
                         else o_bottom off)).
    { unfold place_align, is_top, is_bottom, advance, advance_bottom.
      destruct (align (style e1)); split; reflexivity. }
    assert (Hy : match align (style e1) with
                 | AlignTop =>
                     position_y (group (fst (fst (place_align d e1 off))))
                     = neg (add (o_top off) (top (margin (_dimensions e1))))
                 | AlignBottom =>
                     position_y (group (fst (fst (place_align d e1 off))))
                     = add (sub (add (o_bottom off) (bottom (margin (_dimensions e1))))
                                (height d))
                           (height (_dimensions e1))
                 | _ => position_y (group (fst (fst (place_align d e1 off))))
                        = position_y (group e1)
                 end).
    { unfold place_align. destruct (align (style e1)); reflexivity. }
    destruct (place_align d e1 off) as [[e2 off'] w2].
    cbn [fst snd] in Htop, Hbot, Hpa, Hpd, Hpy, Hoff, Hy. destruct Hpa as (_ & Hdim & _).
    destruct Hoff as (Hot & Hob).
    destruct (refresh_elements rf d w rest off') as [rest' w3] eqn:Hrest.
    cbn [fst] in Hc' |- *.
    destruct i as [|i].
    + cbn in Hc, Hc'. inversion Hc; inversion Hc'; subst c c'. cbn [firstn filter fold_left].
      rewrite Hpy, Hpd, Hdim, <- Hst.
      destruct (align (style e1)); rewrite ?Hy, ?Hg; reflexivity.
    + cbn [nth_error] in Hc, Hc'. cbn [firstn filter]. rewrite Htop, Hbot.
      specialize (IH off' i Hc). rewrite Hrest in IH. cbn [fst] in IH.
      specialize (IH Hc'). rewrite Hot, Hob in IH.
      assert (Ha : advance (o_top off) (place_position w e2) = advance (o_top off) e1)
        by (unfold advance; rewrite Hpd, Hdim; reflexivity).
      assert (Hb : advance_bottom (o_bottom off) (place_position w e2)
                   = advance_bottom (o_bottom off) e1)
        by (unfold advance_bottom; rewrite Hpd, Hdim; reflexivity).
      destruct (is_top e1), (is_bottom e1); cbn [fold_left]; rewrite ?Ha, ?Hb; exact IH.
Qed.

End AlignmentProperties.

(** X5.  After [refresh] of a vertical layout, whatever the alignments of
    its children: a child declaring [align = top] is placed below the
    top padding and the top-aligned children before it, the children of
    other alignments between them taking no room; a child declaring
    [align = bottom] is placed above the bottom padding and the
    bottom-aligned children before it, at
    [offset.bottom + margin.bottom - layoutHeight + height]; a child of
    any other alignment keeps the vertical position it had. *)
Theorem alignments_stack_independently :
  forall (num : Type) (N : Number num)
         (resolveDimensions : Element num -> option num -> option num -> Dimensions num)
         (maxEltWidth maxEltHeight : option num) (this : Element num)
         (i : nat) (c c' : Element num),
    type this = VerticalLayout ->
    let this' := fst (refresh resolveDimensions maxEltWidth maxEltHeight this) in
    let before := firstn i (_elements this') in
    let dimensions := _dimensions this' in
    nth_error (_elements this) i = Some c ->
    nth_error (_elements this') i = Some c' ->
    match align (style c) with
    | AlignTop =>
        position_y (group c')
        = neg (upper_edge (top (padding dimensions)) (filter is_top before) c')
    | AlignBottom =>
        position_y (group c')
        = add (sub (add (fold_left advance_bottom (filter is_bottom before)
                                   (bottom (padding dimensions)))
                        (bottom (margin (_dimensions c'))))
                   (height dimensions))
              (height (_dimensions c'))
    | _ => position_y (group c') = position_y (group c)
    end.
Proof.
  intros num N R mw mh this i c c' Hty this' before dimensions Hc Hc'.
  subst this' before dimensions.
  rewrite (refresh_layout R mw mh this Hty) in Hc' |- *.
  cbn [fst _elements set_elements _dimensions set_dimensions] in Hc' |- *.
  apply (@refresh_elements_alignment num N
           (refresh R (Some (inner_width (R this mw mh)))
                    (Some (inner_height (R this mw mh))))
           (R this mw mh) (inner_width (R this mw mh))
           (fun x => proj1 (refresh_root R _ _ x))
           (fun x => proj1 (proj2 (refresh_root R _ _ x)))
           (_elements this) _ i c c' Hc Hc').
Qed.

(** A layout of height 1 with a top child, a centered child, a bottom
    child and a second top child, each of height 1/8. *)
Lemma alignments_stack_independently_witness :
  position_y (group mixed_fourth)
  = neg (upper_edge (top (padding (_dimensions mixed_refreshed)))
           (filter is_top (firstn 3 (_elements mixed_refreshed))) mixed_fourth).
Proof.
  exact (@alignments_stack_independently Q Q_Number keepDimensions None None
           mixed_layout 3 (boxed 5 AlignTop PositionLeft 1%Q (1 # 8)%Q box0)
           mixed_fourth eq_refl eq_refl eq_refl).
Defined.

Section WarningProperties.
Context {num : Type} {N : Number num}.
Variable resolveDimensions :
  Element num -> option num -> option num -> Dimensions num.

Lemma centered_eq (e : Element num) :
  centered e
  = match type e with
    | ElementView => 0
    | VerticalLayout =>
        fold_right
          (fun c n =>
             centered c + (match align (style c) with AlignCenter => 1 | _ => 0 end) + n)
          0 (_elements e)
    end.
Proof.
  destruct e as [ty id st dims pd par g h bg en ex elts]. destruct ty; reflexivity.
Qed.

Lemma refresh_elements_warnings
    (rf : Element num -> Element num * list string) (d : Dimensions num) (w : num)
    (elts : list (Element num)) (off : Offset num) :
  (forall c, In c elts ->
             style (fst (rf c)) = style c
             /\ snd (rf c) = repeat center_warning (centered c)) ->
  snd (refresh_elements rf d w elts off)
  = repeat center_warning
      (fold_right
         (fun c n =>
            centered c + (match align (style c) with AlignCenter => 1 | _ => 0 end) + n)
         0 elts).
Proof.
  revert off. induction elts as [|e rest IH]; intros off H; [reflexivity|].
  cbn [refresh_elements fold_right].
  destruct (H e (or_introl eq_refl)) as (Hst & Hw).
  destruct (rf e) as [e1 w1]. cbn [fst snd] in Hst, Hw.
  assert (Hw2 : snd (place_align d e1 off)
                = repeat center_warning
                    (match align (style e) with AlignCenter => 1 | _ => 0 end)).
  { unfold place_align. rewrite Hst. destruct (align (style e)); reflexivity. }
  destruct (place_align d e1 off) as [[e2 off'] w2]. cbn [snd] in Hw2.
  specialize (IH off' (fun c Hc => H c (or_intror Hc))).
  destruct (refresh_elements rf d w rest off') as [rest' w3]. cbn [snd] in IH |- *.
  rewrite Hw, Hw2, IH, <- !repeat_app. f_equal. apply Nat.add_assoc.
Qed.

Lemma refresh_warnings (mw mh : option num) (e : Element num) :
  snd (refresh resolveDimensions mw mh e) = repeat center_warning (centered e).
Proof.
  revert mw mh. induction e as [e IH] using Element_tree_ind. intros mw mh.
  rewrite centered_eq. destruct (type e) eqn:Hty.
  - rewrite (refresh_layout resolveDimensions mw mh e Hty). cbn [snd].
    apply refresh_elements_warnings. intros c Hc.
    split; [apply refresh_root | apply (IH c Hc)].
  - destruct e as [ty id st dims pd par g h bg en ex elts]. cbn in Hty. subst ty.
    reflexivity.
Qed.

End WarningProperties.

(** X6.  [refresh] prints one warning, always the same, for each child
    declaring [align = center] in the tree of the layout, at every depth,
    and no other warning; the layout is refreshed all the same. *)
Theorem refresh_warns_once_per_centered_child :
  forall (num : Type) (N : Number num)
         (resolveDimensions : Element num -> option num -> option num -> Dimensions num)
         (maxEltWidth maxEltHeight : option num) (this : Element num),
    snd (refresh resolveDimensions maxEltWidth maxEltHeight this)
    = repeat center_warning (centered this)
    /\ (centered this = 0 ->
        snd (refresh resolveDimensions maxEltWidth maxEltHeight this) = []).
Proof.
  intros num N R mw mh this.
  pose proof (refresh_warnings R mw mh this) as H.
  split; [exact H|]. intros H0. rewrite H, H0. reflexivity.
Qed.

(** ** VerticalLayout.isFull, further *)



(** ** VRUI._visit, further *)

Section VisitProperties.
Context {num : Type} {N : Number num}.

Lemma below_app (p s : list nat) (root : Element num) :
  below (p ++ s) root
  = match below p root with
    | Some e => below s e
    | None => None
    end.
Proof.
  revert root. induction p as [|i p IH]; intros root; [reflexivity|].
  cbn [app below]. destruct (instanceof_AbstractLayout root); [|reflexivity].
  destruct (nth_error (_elements root) i); [apply IH | reflexivity].
Qed.

Lemma indexed_nth_error {A : Type} (l : list A) (k i : nat) (a : A) :
  nth_error l i = Some a -> In (k + i, a) (indexed k l).
Proof.
  revert k i. induction l as [|b l IH]; intros k i H; [destruct i; discriminate|].
  destruct i as [|i]; cbn in H.
  - inversion H; subst. rewrite Nat.add_0_r. left. reflexivity.
  - right. replace (k + S i) with (S k + i) by lia. apply IH. exact H.
Qed.

Lemma children_of_child (path p : list nat) (elt c : Element num) :
  In (p, c) (children_of path elt) ->
  instanceof_AbstractLayout elt = true
  /\ exists i, p = path ++ [i] /\ nth_error (_elements elt) i = Some c.
Proof.
  unfold children_of. destruct (instanceof_AbstractLayout elt); [|intros []].
  intros H. split; [reflexivity|].
  apply in_map_iff in H. destruct H as ([i e] & Heq & Hin). cbn in Heq.
  inversion Heq; subst. exists i. split; [reflexivity|].
  apply in_indexed in Hin. rewrite Nat.sub_0_r in Hin. apply Hin.
Qed.

Lemma child_children_of (path : list nat) (elt c : Element num) (i : nat) :
  instanceof_AbstractLayout elt = true ->
  nth_error (_elements elt) i = Some c ->
  In (path ++ [i], c) (children_of path elt).
Proof.
  intros Hl Hc. unfold children_of. rewrite Hl.
  apply in_map_iff. exists (i, c). split; [reflexivity|].
  apply (indexed_nth_error _ 0 _ Hc).
Qed.

(** The queue holds the objects of one depth, followed by objects one
    level deeper: this is kept when the head leaves and its children
    enter, and the head is among the least deep. *)
Lemma layered_step (k : nat) (p : list nat) (e : Element num)
    (rest ch : list (list nat * Element num)) :
  (exists A B, (p, e) :: rest = A ++ B
               /\ Forall (fun pe => length (fst pe) = k) A
               /\ Forall (fun pe => length (fst pe) = S k) B) ->
  Forall (fun pe => length (fst pe) = S (length p)) ch ->
  (forall pe, In pe rest -> length p <= length (fst pe))
  /\ exists k' A B, rest ++ ch = A ++ B
                    /\ Forall (fun pe => length (fst pe) = k') A
                    /\ Forall (fun pe => length (fst pe) = S k') B.
Proof.
  intros (A & B & Heq & HA & HB) Hch. destruct A as [|a A'].
  - cbn in Heq. subst B.
    pose proof (Forall_inv HB) as Hx. pose proof (Forall_inv_tail HB) as Hl.
    cbn in Hx. split.
    + intros pe Hin. rewrite Forall_forall in Hl. rewrite (Hl pe Hin). lia.
    + exists (S k), rest, ch. split; [reflexivity|]. split; [exact Hl|].
      rewrite <- Hx. exact Hch.
  - cbn in Heq. injection Heq as Ha Hr. subst a rest.
    pose proof (Forall_inv HA) as Hx. pose proof (Forall_inv_tail HA) as Hl.
    cbn in Hx. split.
    + intros pe Hin. apply in_app_or in Hin. rewrite Forall_forall in Hl, HB.
      destruct Hin as [Hin|Hin]; [rewrite (Hl pe Hin) | rewrite (HB pe Hin)]; lia.
    + exists k, A', (B ++ ch). split; [symmetry; apply app_assoc|].
      split; [exact Hl|]. apply Forall_app. split; [exact HB|].
      rewrite <- Hx. exact Hch.
Qed.

Lemma children_of_deeper (path : list nat) (elt : Element num) :
  Forall (fun pe => length (fst pe) = S (length path)) (children_of path elt).
Proof.
  apply Forall_forall. intros [p c] Hin.
  apply children_of_child in Hin. destruct Hin as (_ & i & -> & _).
  cbn [fst]. rewrite length_app. cbn. lia.
Qed.

(** An accepted object that is in the queue or below an object of the
    queue makes the loop answer, with an object that is not deeper. *)
Lemma visit_loop_complete (callback : Element num -> bool)
    (visited : list (list nat * Element num)) :
  forall (q : list nat) (d : Element num),
    (exists k A B, visited = A ++ B
                   /\ Forall (fun pe => length (fst pe) = k) A
                   /\ Forall (fun pe => length (fst pe) = S k) B) ->
    (exists p e s, In (p, e) visited /\ q = p ++ s /\ below s e = Some d) ->
    callback d = true ->
    exists found, visit_loop callback visited = Some found /\ length found <= length q.
Proof.
  funelim (visit_loop callback visited); intros q d Hlay Hcov Hd.
  - destruct Hcov as (p & e & s & [] & _).
  - destruct Hlay as (k & Hlay).
    destruct (layered_step Hlay (children_of_deeper path elt)) as (Hmin & Hlay').
    destruct Hcov as (p & e & s & Hin & Hq & Hs).
    destruct (callback elt) eqn:Helt.
    + exists path. split; [reflexivity|]. subst q. rewrite length_app.
      destruct Hin as [Heq|Hin]; [inversion Heq; lia|].
      specialize (Hmin _ Hin). cbn in Hmin. lia.
    + apply (H q d Hlay'); [|exact Hd].
      destruct Hin as [Heq|Hin].
      * inversion Heq; subst p e. destruct s as [|i s].
        { cbn in Hs. inversion Hs; subst. congruence. }
        cbn [below] in Hs.
        destruct (instanceof_AbstractLayout elt) eqn:Hl; [|discriminate].
        destruct (nth_error (_elements elt) i) as [c|] eqn:Hc; [|discriminate].
        exists (path ++ [i]), c, s. split.
        { apply in_or_app. right. apply child_children_of; assumption. }
        split; [|exact Hs]. rewrite Hq, <- app_assoc. reflexivity.
      * exists p, e, s. split; [apply in_or_app; left; exact Hin|]. split; assumption.
Qed.

(** What the loop answers is an accepted object of the tree, reached by
    the path of a queued object or of one below it. *)
Lemma visit_loop_sound (root : Element num) (callback : Element num -> bool)
    (visited : list (list nat * Element num)) (found : list nat) :
  (forall p e, In (p, e) visited -> p <> [] /\ below p root = Some e) ->
  visit_loop callback visited = Some found ->
  found <> [] /\ exists e, below found root = Some e /\ callback e = true.
Proof.
  funelim (visit_loop callback visited); intros Hq Hfound; [discriminate Hfound|].
  destruct (callback elt) eqn:Helt.
  - inversion Hfound; subst. destruct (Hq found elt (or_introl eq_refl)) as (Hne & Hb).
    split; [exact Hne|]. exists elt. split; assumption.
  - apply H; [|exact Hfound]. intros p e Hin. apply in_app_or in Hin.
    destruct Hin as [Hin|Hin]; [apply Hq; right; exact Hin|].
    destruct (Hq path elt (or_introl eq_refl)) as (_ & Hb).
    apply children_of_child in Hin. destruct Hin as (Hl & i & -> & Hc).
    split; [destruct path; discriminate|].
    rewrite below_app, Hb. cbn [below]. rewrite Hl, Hc. reflexivity.
Qed.

Lemma visit_loop_rejects (callback : Element num -> bool)
    (visited : list (list nat * Element num)) :
  (forall p e s d, In (p, e) visited -> below s e = Some d -> callback d = false) ->
  visit_loop callback visited = None.
Proof.
  funelim (visit_loop callback visited); intros Hq; [reflexivity|].
  rewrite (Hq path elt [] elt (or_introl eq_refl) eq_refl).
  apply H. intros p e s d Hin Hs. apply in_app_or in Hin.
  destruct Hin as [Hin|Hin]; [apply (Hq p e s d (or_intror Hin) Hs)|].
  apply children_of_child in Hin. destruct Hin as (Hl & i & -> & Hc).
  apply (Hq path elt (i :: s) d (or_introl eq_refl)).
  cbn [below]. rewrite Hl, Hc. exact Hs.
Qed.

Lemma visit_below (layout : Element num) (callback : Element num -> bool)
    (found : list nat) :
  _visit layout callback = Some found ->
  found <> [] /\ exists e, below found layout = Some e /\ callback e = true.
Proof.
  unfold _visit. destruct (instanceof_AbstractLayout layout) eqn:Hl; [|discriminate].
  cbn [negb]. intros Hfound. eapply visit_loop_sound; [|exact Hfound].
  intros p e Hin. apply children_of_child in Hin.
  destruct Hin as (_ & i & -> & Hc). split; [discriminate|].
  cbn [app below]. rewrite Hl, Hc. reflexivity.
Qed.

Lemma below_subtree (path : list nat) (e d : Element num) :
  below path e = Some d -> subtree path e = Some d.
Proof.
  revert e. induction path as [|i p IH]; intros e H; [exact H|].
  cbn [below] in H. cbn [subtree].
  destruct (instanceof_AbstractLayout e); [|discriminate].
  destruct (nth_error (_elements e) i); [apply IH; exact H | discriminate].
Qed.

Lemma below_update_at (path : list nat) (f : Element num -> Element num)
    (e t : Element num) :
  below path e = Some t -> below path (update_at path f e) = Some (f t).
Proof.
  revert e. induction path as [|i p IH]; intros e H.
  - cbn in H |- *. inversion H. reflexivity.
  - cbn [below update_at] in H |- *.
    replace (instanceof_AbstractLayout
               (set_elements (update_nth i (update_at p f) (_elements e)) e))
      with (instanceof_AbstractLayout e) by reflexivity.
    destruct (instanceof_AbstractLayout e); [|discriminate].
    cbn [_elements set_elements]. rewrite nth_error_update_nth, Nat.eqb_refl.
    destruct (nth_error (_elements e) i) as [c|]; [|discriminate].
    cbn [option_map]. apply IH. exact H.
Qed.

End VisitProperties.

(** X8.  [_visit( layout, callback )] is a breadth-first search below
    [layout].  It answers null exactly when the callback accepts no
    object below [layout]; otherwise it answers an accepted object
    below [layout], never [layout] itself, and no accepted object is
    less deep than the one it answers.  Objects below an object that has
    no [_elements] are not searched. *)
Theorem visit_is_breadth_first :
  forall (num : Type) (N : Number num) (layout : Element num)
         (callback : Element num -> bool),
    (_visit layout callback = None
     <-> forall q d, q <> [] -> below q layout = Some d -> callback d = false)
    /\ (forall found,
          _visit layout callback = Some found ->
          found <> []
          /\ (exists e, below found layout = Some e /\ callback e = true)
          /\ forall q d, q <> [] -> below q layout = Some d -> callback d = true ->
                         length found <= length q).
Proof.
  intros num N layout callback.
  assert (Hfirst : forall q d, q <> [] -> below q layout = Some d ->
                     callback d = true ->
                     exists found, _visit layout callback = Some found
                                   /\ length found <= length q).
  { intros [|i s] d Hne Hb Hd; [contradiction|]. cbn [below] in Hb. unfold _visit.
    destruct (instanceof_AbstractLayout layout) eqn:Hl; [|discriminate].
    destruct (nth_error (_elements layout) i) as [c|] eqn:Hc; [|discriminate].
    cbn [negb]. apply (visit_loop_complete callback) with (d := d); [| |exact Hd].
    - exists 1, (children_of [] layout), []. split; [symmetry; apply app_nil_r|].
      split; [apply (children_of_deeper [] layout) | constructor].
    - exists [i], c, s. split; [|split; [reflexivity | exact Hb]].
      apply (child_children_of [] layout i Hl Hc). }
  split; [split|].
  - intros Hnone q d Hne Hb. destruct (callback d) eqn:Hd; [|reflexivity].
    destruct (Hfirst q d Hne Hb Hd) as (found & Hf & _). congruence.
  - intros Hrej. unfold _visit.
    destruct (instanceof_AbstractLayout layout) eqn:Hl; [|reflexivity].
    cbn [negb]. apply visit_loop_rejects. intros p e s d Hin Hs.
    apply children_of_child in Hin. destruct Hin as (_ & i & -> & Hc).
    apply (Hrej (i :: s) d); [discriminate|].
    cbn [below]. rewrite Hl, Hc. exact Hs.
  - intros found Hfound.
    pose proof (visit_below layout callback Hfound) as Hs.
    split; [apply Hs|]. split; [apply Hs|].
    intros q d Hne Hb Hd. destruct (Hfirst q d Hne Hb Hd) as (f & Hf & Hle).
    congruence.
Qed.

(** ** VRUI._addWithExpansion with a layoutID *)

Section ResolvedProperties.
Context {num : Type} {N : Number num}.

Lemma strict_eqb_true (id : option string) (layoutID : string) :
  strict_eqb id (Some layoutID) = true -> id = Some layoutID.
Proof.
  destruct id as [s|]; [|discriminate]. cbn. intros H.
  apply String.eqb_eq in H. subst. reflexivity.
Qed.

Lemma add_one (target element : Element num) :
  AbstractLayout_add [VElement element] target = (Normal tt, added target element).
Proof. reflexivity. Qed.

End ResolvedProperties.

(** X9.  [_addWithExpansion( element, layoutID )] on a controller that
    has a page, when [_visit] finds the layoutID below the last page: the
    object found declares this [data.id]; when it is not a layout the
    call throws and the controller is left as it was; when it is a layout
    that is not full, the element is added to it, in place in the last
    page, and nothing else of the controller changes. *)
Theorem add_with_layoutID_targets_first_match :
  forall (num : Type) (N : Number num) (this : VRUI num)
         (template element lastPage : Element num) (ps : list (Element num))
         (layoutID : string) (path : list nat),
    data_mode_template this = VElement template ->
    instanceof_AbstractLayout template = true ->
    layoutID <> "" ->
    pages this = ps ++ [lastPage] ->
    _visit lastPage (fun elt => strict_eqb (data_id elt) (Some layoutID)) = Some path ->
    exists target : Element num,
      below path lastPage = Some target
      /\ data_id target = Some layoutID
      /\ (instanceof_AbstractLayout target = false ->
          _addWithExpansion element (Some layoutID) this
          = (Throw (Error "VRUI.add(): trying to add element in an element that is not an instance of VRUI.AbstractLayout!"),
             this))
      /\ (instanceof_AbstractLayout target = true ->
          isFull target = false ->
          _addWithExpansion element (Some layoutID) this
          = (Normal tt,
             set_pages
               (ps ++ [update_at path (fun _ => added target element) lastPage])
               this)
          /\ below path (update_at path (fun _ => added target element) lastPage)
             = Some (added target element)).
Proof.
  intros num N this template element lastPage ps layoutID path Ht Hl Hid Hp Hvisit.
  assert (Htruthy : truthy_string (Some layoutID) = true).
  { cbn. apply negb_true_iff. apply String.eqb_neq. exact Hid. }
  destruct (visit_below _ _ Hvisit) as (_ & target & Hb & Hcb).
  exists target. split; [exact Hb|]. split; [apply strict_eqb_true; exact Hcb|].
  assert (Hsub : subtree path lastPage = Some target) by (apply below_subtree; exact Hb).
  split.
  - intros Hnot.
    unfold _addWithExpansion, bind, get. rewrite Ht, Hl. cbn [negb].
    rewrite Hp. rewrite length_last_index.
    replace (0 <? length (ps ++ [lastPage])) with true by (destruct ps; reflexivity).
    unfold ret at 1. rewrite Htruthy.
    unfold visit, load, bind, get, deref. cbn [ref_page ref_path].
    rewrite Hp, nth_error_middle. cbn [subtree]. unfold ret at 1.
    rewrite Hvisit. cbn [option_map app ref_page ref_path]. unfold ret at 1.
    cbn [ref_page ref_path]. rewrite ?Hp, nth_error_middle, Hsub, Hnot.
    reflexivity.
  - intros Hlay Hfull. split;
      [|apply below_update_at with (f := fun _ : Element num => added target element)
                                   (t := target); exact Hb].
    unfold _addWithExpansion, bind, get. rewrite Ht, Hl. cbn [negb].
    rewrite Hp. rewrite length_last_index.
    replace (0 <? length (ps ++ [lastPage])) with true by (destruct ps; reflexivity).
    unfold ret at 1. rewrite Htruthy.
    unfold visit, load, bind, get, deref. cbn [ref_page ref_path].
    rewrite Hp, nth_error_middle. cbn [subtree]. unfold ret at 1.
    rewrite Hvisit. cbn [option_map app ref_page ref_path]. unfold ret at 1.
    cbn [ref_page ref_path]. rewrite ?Hp, nth_error_middle, Hsub, Hlay, Hfull.
    cbn [negb]. unfold ret at 1. cbn [ref_page ref_path].
    rewrite ?Hp, nth_error_middle, Hsub. unfold ret at 1.
    rewrite add_one. unfold update_page, modify, ret.
    rewrite Hp, update_nth_middle. reflexivity.
Qed.

(** The controller whose page holds the empty layout grid receives an
    element for grid. *)
Lemma add_with_layoutID_targets_first_match_witness :
  _addWithExpansion (view 10 1%float) (Some "grid") grid_controller
  = (Normal tt,
     set_pages
       [update_at [0]
          (fun _ => added (layout 2 (Some "grid") []) (view 10 1%float))
          (placed_page (empty_controller (VElement grid_template)) grid_template
             None true)]
       grid_controller).
Proof.
  assert (Hv : _visit (placed_page (empty_controller (VElement grid_template))
                         grid_template None true)
                 (fun elt : Element float => strict_eqb (data_id elt) (Some "grid"))
               = Some [0]).
  { vm_compute. reflexivity. }
  destruct (@add_with_layoutID_targets_first_match float float_Number
              grid_controller grid_template (view 10 1%float)
              (placed_page (empty_controller (VElement grid_template)) grid_template
                 None true)
              [] "grid" [0] eq_refl eq_refl ltac:(discriminate) eq_refl Hv)
    as (target & Hb & _ & _ & Hadd).
  vm_compute in Hb. injection Hb as Hb. subst target.
  apply Hadd; reflexivity.
Defined.

Section FullTargetProperties.
Context {num : Type} {N : Number num}.

Lemma visit_placed_page (this : VRUI num) (T : Element num)
    (d : option (Dim num)) (v : bool) (callback : Element num -> bool) :
  _visit (placed_page this T d v) callback = _visit T callback.
Proof. reflexivity. Qed.

Lemma subtree_placed_page (this : VRUI num) (T : Element num)
    (d : option (Dim num)) (v : bool) (path : list nat) :
  path <> [] -> subtree path (placed_page this T d v) = subtree path T.
Proof. destruct path; [contradiction | reflexivity]. Qed.

End FullTargetProperties.

(** X10.  [_addWithExpansion( element, layoutID )] when the layout found
    for the layoutID below the last page is full: a clone of the template
    is pushed as a new, hidden page and the layoutID is searched again
    below it.  When the template holds no object of this [data.id], a
    warning is printed and the element is dropped, the new page staying
    in place; otherwise the element is added to the layout found below
    the new page, which is not asked whether it is full. *)
Theorem full_target_opens_page :
  forall (num : Type) (N : Number num) (this : VRUI num)
         (template element lastPage target : Element num)
         (ps : list (Element num)) (layoutID : string) (path : list nat),
    data_mode_template this = VElement template ->
    instanceof_AbstractLayout template = true ->
    layoutID <> "" ->
    pages this = ps ++ [lastPage] ->
    _visit lastPage (fun elt => strict_eqb (data_id elt) (Some layoutID)) = Some path ->
    below path lastPage = Some target ->
    instanceof_AbstractLayout target = true ->
    isFull target = true ->
    let page := placed_page this (clone template) None false in
    let opened (pages' : list (Element num)) :=
      set_pageGroup (pageGroup_with this (clone template)) (set_pages pages' this) in
    (_visit (clone template) (fun elt => strict_eqb (data_id elt) (Some layoutID)) = None ->
     _addWithExpansion element (Some layoutID) this
     = (Normal tt,
        set_console
          (console this
             ++ [("VRUI.add(): given layoutID '" ++ layoutID ++ "' was not found.")%string])
          (opened (ps ++ [lastPage; page]))))
    /\ (forall (path' : list nat) (target' : Element num),
          _visit (clone template) (fun elt => strict_eqb (data_id elt) (Some layoutID))
          = Some path' ->
          below path' (clone template) = Some target' ->
          instanceof_AbstractLayout target' = true ->
          _addWithExpansion element (Some layoutID) this
          = (Normal tt,
             opened (ps ++ [lastPage;
                            update_at path' (fun _ => added target' element) page]))).
Proof.
  intros num N this template element lastPage target ps layoutID path
         Ht Hl Hid Hp Hvisit Hb Hlay Hfull page opened.
  assert (Htruthy : truthy_string (Some layoutID) = true).
  { cbn. apply negb_true_iff. apply String.eqb_neq. exact Hid. }
  assert (Hsub : subtree path lastPage = Some target) by (apply below_subtree; exact Hb).
  assert (Hne : pages this <> []) by (rewrite Hp; destruct ps; discriminate).
  split.
  - intros Hnone.
    unfold _addWithExpansion, bind, get. rewrite Ht, Hl. cbn [negb].
    rewrite Hp. rewrite length_last_index.
    replace (0 <? length (ps ++ [lastPage])) with true by (destruct ps; reflexivity).
    unfold ret at 1. rewrite Htruthy.
    unfold visit, load, bind, get, deref. cbn [ref_page ref_path].
    rewrite Hp, nth_error_middle. cbn [subtree]. unfold ret at 1.
    rewrite Hvisit. cbn [option_map app ref_page ref_path]. unfold ret at 1.
    cbn [ref_page ref_path]. rewrite ?Hp, nth_error_middle, Hsub, Hlay, Hfull.
    cbn [negb]. rewrite <- Hp. rewrite (addPage_next this (clone template) None Hne).
    cbn [pages set_pageGroup set_pages]. rewrite nth_error_middle.
    unfold ret at 1. rewrite visit_placed_page, Hnone. cbn [option_map].
    unfold ret at 1. unfold warn, modify. subst opened page. cbv beta.
    cbn [console set_pageGroup set_pages]. rewrite Hp, <- app_assoc. reflexivity.
  - intros path' target' Hvisit' Hb' Hlay'.
    destruct (visit_below _ _ Hvisit') as (Hne' & _).
    assert (Hsub' : subtree path' (clone template) = Some target')
      by (apply below_subtree; exact Hb').
    unfold _addWithExpansion, bind, get. rewrite Ht, Hl. cbn [negb].
    rewrite Hp. rewrite length_last_index.
    replace (0 <? length (ps ++ [lastPage])) with true by (destruct ps; reflexivity).
    unfold ret at 1. rewrite Htruthy.
    unfold visit, load, bind, get, deref. cbn [ref_page ref_path].
    rewrite Hp, nth_error_middle. cbn [subtree]. unfold ret at 1.
    rewrite Hvisit. cbn [option_map app ref_page ref_path]. unfold ret at 1.
    cbn [ref_page ref_path]. rewrite ?Hp, nth_error_middle, Hsub, Hlay, Hfull.
    cbn [negb]. rewrite <- Hp. rewrite (addPage_next this (clone template) None Hne).
    cbn [pages set_pageGroup set_pages]. rewrite nth_error_middle.
    unfold ret at 1. rewrite visit_placed_page, Hvisit'. cbn [option_map].
    unfold ret at 1. cbn [ref_page ref_path pages set_pageGroup set_pages].
    rewrite nth_error_middle, (subtree_placed_page this (clone template) None false Hne'), Hsub'.
    unfold ret at 1. rewrite add_one. unfold update_page, modify, ret.
    cbn [ref_page ref_path pages set_pageGroup set_pages].
    rewrite update_nth_middle. subst opened page. cbv beta.
    rewrite Hp, <- app_assoc. reflexivity.
Qed.

(** The layout grid of the page is full: the next element for grid goes
    to the layout grid of a second page, cloned from the template. *)
Lemma full_target_opens_page_witness :
  _addWithExpansion (view 11 1%float) (Some "grid") full_grid_controller
  = (Normal tt,
     set_pageGroup (pageGroup_with full_grid_controller (clone grid_template))
       (set_pages
          (pages full_grid_controller
             ++ [update_at [0]
                   (fun _ => added (layout 2 (Some "grid") []) (view 11 1%float))
                   (placed_page full_grid_controller (clone grid_template) None false)])
          full_grid_controller)).
Proof.
  pose proof (@full_target_opens_page float float_Number full_grid_controller
                grid_template (view 11 1%float)
                (nth 0 (pages full_grid_controller) (view 0 0%float))
                (added (layout 2 (Some "grid") []) (view 10 1%float))
                [] "grid" [0]
                eq_refl eq_refl ltac:(discriminate)
                ltac:(vm_compute; reflexivity) ltac:(vm_compute; reflexivity)
                ltac:(vm_compute; reflexivity) eq_refl
                ltac:(vm_compute; reflexivity)) as H.
  apply (proj2 H [0] (layout 2 (Some "grid") []));
    [vm_compute; reflexivity | reflexivity | reflexivity].
Defined.

(** ** The constructor of VRUI *)

Section ConstructorProperties.
Context {num : Type} {N : Number num}.


End ConstructorProperties.



(** ** VRUI.add and VRUI._add *)

Section ControllerAddProperties.
Context {num : Type} {N : Number num}.


Lemma add_each_app (l1 l2 : list (Value num)) (layoutID : option string)
    (this : VRUI num) :
  _add_each (l1 ++ l2) layoutID this
  = (_add_each l1 layoutID ;;; _add_each l2 layoutID) this.
Proof.
  revert this. induction l1 as [|v l1 IH]; intros this.
  - reflexivity.
  - cbn [app _add_each]. unfold bind.
    destruct (_add v layoutID this) as [[u|e] this1]; [|reflexivity].
    rewrite IH. reflexivity.
Qed.


End ControllerAddProperties.



(** X13.  [add] of an array is the sequence of the [_add] calls of its
    entries, in order, and is not atomic: an array in two parts is added
    as the first part followed by the second; when the entries of the
    first part have been added and the next entry is not an Element
    (null, a nested array, any other value), [add] throws the TypeError
    of [_add], the controller keeps what the first part did to it, and
    the entries after the invalid one are not added. *)
Theorem add_array_is_a_sequence :
  forall (num : Type) (N : Number num) (this this1 : VRUI num)
         (l1 l2 : list (Value num)) (v : Value num) (layoutID : option string),
    VRUI_add (VArray l1) layoutID this = (Normal tt, this1) ->
    (forall e, v <> VElement e) ->
    VRUI_add (VArray (l1 ++ l2)) layoutID this = VRUI_add (VArray l2) layoutID this1
    /\ VRUI_add (VArray (l1 ++ v :: l2)) layoutID this = (Throw not_an_element, this1).
Proof.
  intros num N this this1 l1 l2 v layoutID H1 Hv. cbn [VRUI_add] in H1 |- *.
  split.
  - rewrite add_each_app. unfold bind. rewrite H1. reflexivity.
  - rewrite add_each_app. unfold bind at 1. rewrite H1.
    cbn [_add_each]. unfold bind.
    destruct v as [| |e|l|]; try reflexivity.
    exfalso. apply (Hv e). reflexivity.
Qed.

(** Two elements followed by null, in a mode that only warns. *)
Lemma add_array_is_a_sequence_witness :
  VRUI_add (VArray ([VElement (view 10 1%float); VElement (view 11 1%float)]
                      ++ VNull :: [VElement (view 12 1%float)]))
    None other_mode_controller
  = (Throw not_an_element,
     set_console
       (console other_mode_controller
          ++ repeat (mode_warning other_mode_controller) 2)
       other_mode_controller).
Proof.
  apply (@add_array_is_a_sequence float float_Number other_mode_controller _
           [VElement (view 10 1%float); VElement (view 11 1%float)]
           [VElement (view 12 1%float)] VNull None).
  - reflexivity.
  - discriminate.
Defined.

(** X14.  A controller built in automatic mode without template (no
    [mode], or a [mode] whose [template] is missing or null) cannot
    [add]: its template is null, the constructor has not refused it, and
    [add] of any Element, with or without layoutID, throws the Error of
    [_addWithExpansion] on the template and leaves the controller as it
    was, root page included. *)
Theorem add_without_template_throws :
  forall (num : Type) (N : Number num) (data : Data num) (root : Value num)
         (built : VRUI num) (elt : Element num) (layoutID : option string),
    new_VRUI data root = Normal built ->
    match cfg_mode data with
    | None => True
    | Some (ty, template) =>
        (ty = None \/ ty = Some AUTOMATIC_ADDING)
        /\ (template = VUndefined \/ template = VNull)
    end ->
    data_mode_template built = VNull
    /\ VRUI_add (VElement elt) layoutID built = (Throw not_a_template, built).
Proof.
  intros num N data root built elt layoutID Hbuilt Hmode.
  assert (H : data_mode_type built = AUTOMATIC_ADDING
              /\ data_mode_template built = VNull).
  { revert Hbuilt. unfold new_VRUI.
    destruct (missing_or_not_positive (cfg_width data)); [discriminate|].
    destruct (missing_or_not_positive (cfg_height data)); [discriminate|].
    set (mode := match cfg_mode data with
                 | Some m => m
                 | None => (Some AUTOMATIC_ADDING, VUndefined)
                 end).
    assert (Hm : (fst mode = None \/ fst mode = Some AUTOMATIC_ADDING)
                 /\ (snd mode = VUndefined \/ snd mode = VNull)).
    { subst mode. destruct (cfg_mode data) as [[ty t]|]; cbn; [exact Hmode | auto]. }
    destruct Hm as (Hty & Htm).
    set (mt := match fst mode with
               | Some t => if (t =? 0)%Z then AUTOMATIC_ADDING else t
               | None => AUTOMATIC_ADDING
               end).
    assert (Hmt : mt = AUTOMATIC_ADDING)
      by (subst mt; destruct Hty as [-> | ->]; reflexivity).
    rewrite Hmt. change ((AUTOMATIC_ADDING =? AUTOMATIC_ADDING)%Z) with true.
    cbv iota.
    assert (Hframe : forall c : VRUI num,
               data_mode_type (snd (addPage root None c)) = data_mode_type c
               /\ data_mode_template (snd (addPage root None c)) = data_mode_template c).
    { intros c. destruct root as [| |page|l|]; try (split; reflexivity).
      destruct (pages c) as [|p0 ps] eqn:Hp.
      - rewrite (addPage_first c page None Hp). split; reflexivity.
      - rewrite addPage_next by (rewrite Hp; discriminate). split; reflexivity. }
    destruct Htm as [-> | ->]; cbv iota;
      match goal with
      | |- context [addPage root None ?c] =>
          specialize (Hframe c); destruct (addPage root None c) as [[u|e] c']
      end;
      cbn in Hframe; destruct Hframe as (Hty' & Htm');
      destruct root; intros Heq; inversion Heq; subst; auto. }
  destruct H as (Hty & Htm). split; [exact Htm|].
  unfold VRUI_add, _add, bind, get. rewrite Hty. cbn.
  unfold _addWithExpansion, bind, get. rewrite Htm. reflexivity.
Qed.

(** The controller [new VRUI( { width: 1, height: 1 }, root )]. *)
Lemma add_without_template_throws_witness :
  exists built : VRUI float,
    new_VRUI (mkData (Some 1%float) (Some 1%float) None) (VElement empty_template)
    = Normal built
    /\ VRUI_add (VElement (view 10 1%float)) None built
       = (Throw not_a_template, built).
Proof.
  eexists. split; [vm_compute; reflexivity|].
  apply (@add_without_template_throws float float_Number
           (mkData (Some 1%float) (Some 1%float) None) (VElement empty_template) _
           (view 10 1%float) None ltac:(vm_compute; reflexivity) I).
Defined.

(** ** VRUI.nextPage and VRUI.prevPage, further *)

Section CycleProperties.
Context {num : Type} {N : Number num}.

Lemma turned_turned (this : VRUI num) (i j k : nat) :
  current_page this i ->
  turned (turned this i j) j k = turned this i k.
Proof.
  intros (Hi & Hid & Hcur & Hvis).
  assert (Hpages :
            update_nth k (setVisible true)
              (update_nth j (setVisible false)
                 (update_nth j (setVisible true)
                    (update_nth i (setVisible false) (pages this))))
            = update_nth k (setVisible true)
                (update_nth i (setVisible false) (pages this))).
  { apply nth_error_ext. intros m. rewrite !nth_error_update_nth.
    destruct (nth_error (pages this) m) as [p|] eqn:Hp;
      [|destruct (m =? i), (m =? j), (m =? k); reflexivity].
    specialize (Hvis m p Hp).
    destruct (Nat.eqb_spec m k) as [Hk|Hk], (Nat.eqb_spec m j) as [Hj|Hj],
             (Nat.eqb_spec m i) as [Hm|Hm];
      cbn; rewrite ?setVisible_twice; try reflexivity;
      (rewrite setVisible_same; [reflexivity | exact Hvis]). }
  unfold turned. cbn. rewrite Hpages. reflexivity.
Qed.

Lemma turned_same (this : VRUI num) (i : nat) :
  current_page this i -> turned this i i = this.
Proof.
  intros Hc. rewrite <- (turned_turned i i Hc).
  apply turned_back; [exact Hc | apply Hc].
Qed.

Lemma turns_turned (t : Turn) (k : nat) :
  forall (this : VRUI num) (i : nat),
    current_page this i ->
    turns k t this
    = (Normal tt,
       turned this i
         (Nat.iter k (fun j => turn_index (length (pages this)) j t) i)).
Proof.
  induction k as [|k IH]; intros this i Hc.
  - cbn. rewrite (turned_same Hc). reflexivity.
  - assert (Hlt : turn_index (length (pages this)) i t < length (pages this)).
    { apply turn_index_lt. destruct Hc as (Hi & _). lia. }
    cbn [turns]. unfold bind. rewrite (turn_turned t Hc).
    rewrite (IH _ _ (turned_current Hc Hlt)).
    rewrite turned_length, (turned_turned _ _ Hc), Nat.iter_succ_r.
    reflexivity.
Qed.

Lemma iter_next (n i k : nat) :
  Nat.iter k (fun j => turn_index n j Next) i = if k =? 0 then i else (i + k) mod n.
Proof.
  induction k as [|k IH]; [reflexivity|].
  rewrite Nat.iter_succ, IH. cbn [Nat.eqb]. unfold turn_index.
  destruct k as [|k']; cbn [Nat.eqb]; [reflexivity|].
  rewrite Nat.Div0.add_mod_idemp_l. f_equal. lia.
Qed.

Lemma iter_prev (n i k : nat) :
  0 < n ->
  Nat.iter k (fun j => turn_index n j Prev) i
  = if k =? 0 then i else (i + k * (n - 1)) mod n.
Proof.
  intros Hn. induction k as [|k IH]; [reflexivity|].
  rewrite Nat.iter_succ, IH. cbn [Nat.eqb]. unfold turn_index.
  destruct k as [|k']; cbn [Nat.eqb]; [f_equal; lia|].
  set (k := S k').
  replace ((i + k * (n - 1)) mod n + n - 1)
    with ((i + k * (n - 1)) mod n + (n - 1)) by lia.
  rewrite Nat.Div0.add_mod_idemp_l. f_equal. lia.
Qed.

End CycleProperties.

(** X15.  On a controller without page and without current page,
    [nextPage()] and [prevPage()] throw a TypeError, on
    [this.currPage.setVisible], after [_pageId] has become NaN (a
    remainder by the length 0); nothing else has changed, and the next
    [addPage] makes its page current and sets [_pageId] to 0 again. *)
Theorem turn_without_page_throws :
  forall (num : Type) (N : Number num) (this : VRUI num) (t : Turn),
    pages this = [] ->
    currPage this = None ->
    turn t this = (Throw no_current_page, set_pageId None this)
    /\ forall (page : Element num) (dimensions : option (Dim num)),
         exists this',
           (addPage (VElement page) dimensions) (set_pageId None this)
           = (Normal tt, this')
           /\ current_page this' 0.
Proof.
  intros num N this t Hp Hc. split.
  - destruct t; cbn [turn]; unfold nextPage, prevPage, bind, get, modify;
      cbn; rewrite Hp, Hc; cbn; destruct (_pageId this); reflexivity.
  - intros page dimensions.
    destruct (@addPage_first_current num N (set_pageId None this) page dimensions Hp)
      as (this' & Hadd & _ & Hcur).
    exists this'. split; assumption.
Qed.

(** A controller just built, without root. *)
Lemma turn_without_page_throws_witness :
  nextPage (empty_controller (VNull : Value float))
  = (Throw no_current_page, set_pageId None (empty_controller VNull)).
Proof.
  apply (@turn_without_page_throws float float_Number (empty_controller VNull) Next
           eq_refl eq_refl).
Defined.

(** X16.  On a controller with [n] pages whose page [i] is current and
    alone visible, [k] calls of [nextPage] lead to page [(i + k) mod n]
    and [k] calls of [prevPage] to page [(i + k (n - 1)) mod n], current
    and alone visible; [n] calls of [nextPage], and [n] calls of
    [prevPage], give back the very same controller state. *)
Theorem full_cycle_returns :
  forall (num : Type) (N : Number num) (this : VRUI num) (i : nat),
    current_page this i ->
    let n := length (pages this) in
    (forall k, exists this',
         turns k Next this = (Normal tt, this')
         /\ current_page this' ((i + k) mod n))
    /\ (forall k, exists this',
           turns k Prev this = (Normal tt, this')
           /\ current_page this' ((i + k * (n - 1)) mod n))
    /\ (forall t, turns n t this = (Normal tt, this)).
Proof.
  intros num N this i Hc n.
  assert (Hi : i < n) by apply Hc.
  assert (Hn : 0 < n) by lia.
  assert (Hstep : forall t k j,
             Nat.iter k (fun j => turn_index n j t) i = j -> j < n ->
             exists this', turns k t this = (Normal tt, this')
                           /\ current_page this' j).
  { intros t k j Hj Hlt. eexists. split; [apply (turns_turned t k Hc)|].
    fold n. rewrite Hj. apply (turned_current Hc). exact Hlt. }
  split; [|split].
  - intros k. apply Hstep; [|apply Nat.mod_upper_bound; lia].
    rewrite iter_next. destruct (Nat.eqb_spec k 0) as [->|_]; [|reflexivity].
    rewrite Nat.add_0_r. symmetry. apply Nat.mod_small. exact Hi.
  - intros k. apply Hstep; [|apply Nat.mod_upper_bound; lia].
    rewrite (iter_prev _ _ Hn). destruct (Nat.eqb_spec k 0) as [->|_]; [|reflexivity].
    cbn [Nat.mul]. rewrite Nat.add_0_r. symmetry. apply Nat.mod_small. exact Hi.
  - intros t. rewrite (turns_turned t n Hc). fold n.
    replace (Nat.iter n (fun j => turn_index n j t) i) with i;
      [rewrite (turned_same Hc); reflexivity|].
    destruct t.
    + rewrite iter_next. destruct (Nat.eqb_spec n 0) as [Hz|_]; [lia|].
      replace (i + n) with (i + 1 * n) by lia.
      rewrite Nat.Div0.mod_add. symmetry. apply Nat.mod_small. exact Hi.
    + rewrite (iter_prev _ _ Hn). destruct (Nat.eqb_spec n 0) as [Hz|_]; [lia|].
      replace (i + n * (n - 1)) with (i + (n - 1) * n) by lia.
      rewrite Nat.Div0.mod_add. symmetry. apply Nat.mod_small. exact Hi.
Qed.

(** Three calls of [nextPage] on the controller with three pages. *)
Lemma full_cycle_returns_witness :
  turns 3 Next three_pages = (Normal tt, three_pages).
Proof.
  assert (Hc : current_page three_pages 2).
  { split; [vm_compute; lia|]. split; [reflexivity|]. split; [reflexivity|].
    intros j p Hj. destruct j as [|[|[|j]]]; vm_compute in Hj.
    - injection Hj as <-. reflexivity.
    - injection Hj as <-. reflexivity.
    - injection Hj as <-. reflexivity.
    - destruct j; discriminate Hj. }
  apply (proj2 (proj2 (@full_cycle_returns float float_Number three_pages 2 Hc)) Next).
Defined.

(** ** What VRUI.add leaves alone *)

Section Framing.
Context {num : Type} {N : Number num}.
Variable pre : VRUI num -> Prop.
Variable rel : VRUI num -> VRUI num -> Prop.
Hypothesis rel_refl : forall a, rel a a.
Hypothesis rel_trans : forall a b c, rel a b -> rel b c -> rel a c.
Hypothesis pre_rel : forall a b, pre a -> rel a b -> pre b.
Hypothesis rel_addPage :
  forall page d, respects pre rel (addPage (VElement page) d).
Hypothesis rel_warn : forall msg, respects pre rel (warn msg).
Hypothesis rel_place :
  forall r target e this,
    pre this -> deref r this = Some target ->
    rel this
      (snd (update_page (ref_page r)
              (update_at (ref_path r) (fun _ => added target e)) this)).

Lemma respects_ret {A : Type} (a : A) : respects pre rel (ret a).
Proof. intros this _. apply rel_refl. Qed.

Lemma respects_throw {A : Type} (e : Exception) : respects pre rel (@throw num A e).
Proof. intros this _. apply rel_refl. Qed.

Lemma respects_bind {A B : Type} (m : M num A) (k : A -> M num B) :
  respects pre rel m -> (forall a, respects pre rel (k a)) ->
  respects pre rel (bind m k).
Proof.
  intros Hm Hk this Hpre. unfold bind. specialize (Hm this Hpre).
  destruct (m this) as [[a|e] this1]; cbn [snd] in Hm |- *; [|exact Hm].
  apply rel_trans with this1; [exact Hm|].
  apply Hk. apply (pre_rel Hpre Hm).
Qed.

Lemma respects_get {A : Type} (k : VRUI num -> M num A) :
  (forall s, respects pre rel (k s)) -> respects pre rel (bind get k).
Proof. intros H this Hpre. unfold bind, get. apply (H this this Hpre). Qed.

Lemma respects_load (r : option Ref) : respects pre rel (load r).
Proof.
  intros this _. unfold load, bind, get.
  destruct r as [r|]; [destruct (deref r this)|]; apply rel_refl.
Qed.

Lemma respects_visit (r : option Ref) (callback : Element num -> bool) :
  respects pre rel (visit r callback).
Proof.
  unfold visit. apply respects_bind; [apply respects_load|].
  intros e. destruct r; apply respects_ret.
Qed.

Lemma respects_addWithExpansion (element : Element num) (layoutID : option string) :
  respects pre rel (_addWithExpansion element layoutID).
Proof.
  unfold _addWithExpansion. apply respects_get. intros s.
  destruct (data_mode_template s) as [| |template|l|]; try apply respects_throw.
  destruct (negb (instanceof_AbstractLayout template)); [apply respects_throw|].
  apply respects_bind.
  { destruct (0 <? length (pages s)); [apply respects_ret|].
    apply respects_bind; [apply rel_addPage | intros; apply respects_ret]. }
  intros lastPage. apply respects_bind.
  { destruct (truthy_string layoutID); [apply respects_visit | apply respects_ret]. }
  intros lastPage'. apply respects_get. intros s'.
  destruct (match lastPage' with Some r => deref r s' | None => None end)
    as [target|]; [|apply respects_throw].
  destruct (negb (instanceof_AbstractLayout target)); [apply respects_throw|].
  apply respects_bind.
  { destruct (isFull target); [|apply respects_ret].
    apply respects_bind; [apply rel_addPage|].
    intros _. destruct (truthy_string layoutID);
      [apply respects_visit | apply respects_ret]. }
  intros [r|]; [|apply rel_warn].
  intros this Hpre. unfold load, bind, get.
  destruct (deref r this) as [t|] eqn:Hd; [|apply rel_refl].
  unfold ret at 1. rewrite add_one.
  pose proof (rel_place r element Hpre Hd) as H.
  unfold update_page, modify in H |- *. exact H.
Qed.

Lemma respects_add (element : Value num) (layoutID : option string) :
  respects pre rel (_add element layoutID).
Proof.
  destruct element as [| |elt|l|]; try apply respects_throw.
  cbn [_add]. apply respects_get. intros s.
  destruct (data_mode_type s =? AUTOMATIC_ADDING)%Z;
    [apply respects_addWithExpansion | apply rel_warn].
Qed.

Lemma respects_VRUI_add (element : Value num) (layoutID : option string) :
  respects pre rel (VRUI_add element layoutID).
Proof.
  destruct element as [| |elt|l|]; try apply respects_throw;
    try apply respects_add.
  cbn [VRUI_add]. induction l as [|v l IH]; [apply respects_ret|].
  cbn [_add_each]. apply respects_bind; [apply respects_add | intros _; exact IH].
Qed.

End Framing.

Section PagesKept.
Context {num : Type} {N : Number num}.

Lemma extends_refl (this : VRUI num) : extends this this.
Proof.
  split; [reflexivity|]. split; [reflexivity|]. split; [lia|].
  intros j p' H. rewrite H. reflexivity.
Qed.

Lemma extends_trans (a b c : VRUI num) : extends a b -> extends b c -> extends a c.
Proof.
  intros (Ha1 & Ha2 & Ha3 & Ha4) (Hb1 & Hb2 & Hb3 & Hb4).
  split; [congruence|]. split; [congruence|]. split; [lia|].
  intros j pc Hc. specialize (Hb4 j pc Hc).
  destruct (nth_error (pages b) j) as [pb|] eqn:Hb.
  - specialize (Ha4 j pb Hb). destruct (nth_error (pages a) j); congruence.
  - apply nth_error_None in Hb.
    replace (nth_error (pages a) j) with (@None (Element num)); [exact Hb4|].
    symmetry. apply nth_error_None. lia.
Qed.

Lemma extends_nonempty (a b : VRUI num) :
  pages a <> [] -> extends a b -> pages b <> [].
Proof.
  intros Ha (_ & _ & Hl & _) Hb. rewrite Hb in Hl.
  destruct (pages a); [contradiction | cbn in Hl; lia].
Qed.

Lemma extends_same_pages (a b : VRUI num) :
  pages b = pages a -> _pageId b = _pageId a -> currPage b = currPage a ->
  extends a b.
Proof.
  intros Hp H1 H2. split; [exact H1|]. split; [exact H2|]. rewrite Hp.
  split; [lia|]. intros j p' H. rewrite H. reflexivity.
Qed.

Lemma extends_addPage (page : Element num) (d : option (Dim num)) :
  respects (fun this => pages this <> []) extends (addPage (VElement page) d).
Proof.
  intros this Hne. rewrite (addPage_next this page d Hne). cbn [snd].
  split; [reflexivity|]. split; [reflexivity|].
  cbn [pages set_pageGroup set_pages]. split; [rewrite length_app; lia|].
  intros j p' Hj. destruct (nth_error (pages this) j) as [p|] eqn:Hp.
  - rewrite nth_error_app1 in Hj by (apply nth_error_Some; congruence). congruence.
  - apply nth_error_None in Hp. rewrite nth_error_app2 in Hj by exact Hp.
    destruct (j - length (pages this)) as [|m]; cbn in Hj;
      [inversion Hj; reflexivity | destruct m; discriminate].
Qed.

Lemma extends_warn (msg : string) :
  respects (fun this : VRUI num => pages this <> []) extends (warn msg).
Proof. intros this _. apply extends_same_pages; reflexivity. Qed.

Lemma visible_update_at (path : list nat) (f : Element num -> Element num)
    (p t : Element num) :
  subtree path p = Some t ->
  visible (group (f t)) = visible (group t) ->
  visible (group (update_at path f p)) = visible (group p).
Proof.
  destruct path as [|i q]; cbn [subtree update_at].
  - intros H. inversion H; subst. auto.
  - intros _ _. reflexivity.
Qed.

Lemma extends_place (r : Ref) (target e : Element num) (this : VRUI num) :
  pages this <> [] ->
  deref r this = Some target ->
  extends this
    (snd (update_page (ref_page r)
            (update_at (ref_path r) (fun _ => added target e)) this)).
Proof.
  intros _ Hd. unfold update_page, modify. cbn [snd].
  split; [reflexivity|]. split; [reflexivity|]. cbn [pages set_pages].
  split; [rewrite length_update_nth; lia|].
  intros j p'. rewrite nth_error_update_nth. unfold deref in Hd.
  destruct (Nat.eqb_spec j (ref_page r)) as [Hj|Hne].
  - rewrite Hj. destruct (nth_error (pages this) (ref_page r)) as [p|]; [|discriminate].
    cbn. intros H. inversion H; subst.
    apply (visible_update_at _ _ _ Hd). reflexivity.
  - intros H. rewrite H. reflexivity.
Qed.

Lemma extends_add (element : Value num) (layoutID : option string) :
  respects (fun this => pages this <> []) extends (VRUI_add element layoutID).
Proof.
  apply respects_VRUI_add.
  - apply extends_refl.
  - apply extends_trans.
  - apply extends_nonempty.
  - apply extends_addPage.
  - apply extends_warn.
  - apply extends_place.
Qed.

Lemma extends_current (a b : VRUI num) (i : nat) :
  extends a b -> current_page a i -> current_page b i.
Proof.
  intros (H1 & H2 & H3 & H4) (Hi & Hid & Hcur & Hvis).
  split; [lia|]. split; [congruence|]. split; [congruence|].
  intros j p' Hj. specialize (H4 j p' Hj).
  destruct (nth_error (pages a) j) as [p|] eqn:Hp.
  - rewrite H4. apply (Hvis j p Hp).
  - rewrite H4. apply nth_error_None in Hp. symmetry. apply Nat.eqb_neq. lia.
Qed.

End PagesKept.

Section FieldsKept.
Context {num : Type} {N : Number num}.

Lemma untouched_refl (this : VRUI num) : untouched this this.
Proof. unfold untouched. repeat split; reflexivity. Qed.

Lemma untouched_trans (a b c : VRUI num) :
  untouched a b -> untouched b c -> untouched a c.
Proof.
  unfold untouched. intros Ha Hb.
  repeat match goal with H : _ /\ _ |- _ => destruct H end.
  repeat split; congruence.
Qed.

Lemma untouched_addPage (page : Value num) (d : option (Dim num)) (this : VRUI num) :
  untouched this (snd (addPage page d this)).
Proof.
  destruct page as [| |page|l|]; try apply untouched_refl.
  destruct (pages this) as [|p0 ps] eqn:Hp.
  - rewrite (addPage_first this page d Hp). unfold untouched. repeat split; reflexivity.
  - rewrite addPage_next by (rewrite Hp; discriminate).
    unfold untouched. repeat split; reflexivity.
Qed.

Lemma untouched_add (element : Value num) (layoutID : option string) :
  respects (fun _ => True) untouched (VRUI_add element layoutID).
Proof.
  apply respects_VRUI_add.
  - apply untouched_refl.
  - apply untouched_trans.
  - intros; exact I.
  - intros page d this _. apply untouched_addPage.
  - intros msg this _. unfold untouched. repeat split; reflexivity.
  - intros r target e this _ _. unfold untouched. repeat split; reflexivity.
Qed.

End FieldsKept.

(** X17.  [add], whatever it is given and whether it returns or throws,
    touches nothing but the pages, the page group, the current page (on
    a controller without page) and the console: the size, the mode and
    its template, the input object, the ray, the mouse, the press state,
    the update function and the events are as before.  On a controller
    that has a page, it never turns the page: [_pageId] and [currPage]
    are unchanged, no page is removed or moved, every page keeps its
    visibility, and the pages it adds are hidden. *)
Theorem add_never_turns_the_page :
  forall (num : Type) (N : Number num) (this : VRUI num)
         (element : Value num) (layoutID : option string),
    let this' := snd (VRUI_add element layoutID this) in
    untouched this this'
    /\ (pages this <> [] -> extends this this')
    /\ (forall i, current_page this i -> current_page this' i).
Proof.
  intros num N this element layoutID this'.
  pose proof (@untouched_add num N element layoutID) as Hu.
  pose proof (@extends_add num N element layoutID) as He.
  unfold respects in Hu, He.
  split; [apply Hu; exact I|].
  split; [apply He|].
  intros i Hc. apply extends_current with (a := this); [|exact Hc].
  apply He.
  destruct Hc as (Hi & _). destruct (pages this); [cbn in Hi; lia | discriminate].
Qed.

(** ** VRUI.refresh *)

Section ControllerRefreshProperties.
Context {num : Type} {N : Number num}.
Variable resolveDimensions :
  Element num -> option num -> option num -> Dimensions num.

Lemma refresh_pages_nth (l : list (Element num)) (j : nat) :
  nth_error (fst (refresh_pages resolveDimensions l)) j
  = option_map (fun p => fst (refresh resolveDimensions None None p)) (nth_error l j).
Proof.
  revert j. induction l as [|p l IH]; intros j; [destruct j; reflexivity|].
  cbn [refresh_pages]. specialize (IH (pred j)).
  destruct (refresh resolveDimensions None None p) as [p' w] eqn:Hp.
  destruct (refresh_pages resolveDimensions l) as [l' ws].
  destruct j as [|j]; cbn in IH |- *; [rewrite Hp; reflexivity | exact IH].
Qed.

Lemma refresh_pages_length (l : list (Element num)) :
  length (fst (refresh_pages resolveDimensions l)) = length l.
Proof.
  induction l as [|p l IH]; [reflexivity|]. cbn [refresh_pages].
  destruct (refresh resolveDimensions None None p) as [p' w].
  destruct (refresh_pages resolveDimensions l) as [l' ws]. cbn in IH |- *.
  rewrite IH. reflexivity.
Qed.

Lemma refresh_pages_warnings (l : list (Element num)) :
  snd (refresh_pages resolveDimensions l)
  = repeat center_warning (list_sum (map centered l)).
Proof.
  induction l as [|p l IH]; [reflexivity|]. cbn [refresh_pages map list_sum].
  pose proof (refresh_warnings resolveDimensions None None p) as Hw.
  destruct (refresh resolveDimensions None None p) as [p' w].
  destruct (refresh_pages resolveDimensions l) as [l' ws]. cbn [snd] in *.
  rewrite Hw, IH, <- repeat_app. reflexivity.
Qed.

Lemma VRUI_refresh_eq (this : VRUI num) :
  VRUI_refresh resolveDimensions this
  = (Normal tt,
     set_console (console this ++ snd (refresh_pages resolveDimensions (pages this)))
       (set_pages (fst (refresh_pages resolveDimensions (pages this))) this)).
Proof.
  unfold VRUI_refresh, bind, get.
  destruct (refresh_pages resolveDimensions (pages this)) as [pages' ws].
  reflexivity.
Qed.

Lemma extends_refresh (this : VRUI num) :
  extends this (snd (VRUI_refresh resolveDimensions this)).
Proof.
  rewrite VRUI_refresh_eq. cbn [snd].
  split; [reflexivity|]. split; [reflexivity|]. cbn [pages set_console set_pages].
  split; [rewrite refresh_pages_length; lia|].
  intros j p'. rewrite refresh_pages_nth.
  destruct (nth_error (pages this) j) as [p|]; [|discriminate].
  cbn. intros H. inversion H; subst. f_equal. apply refresh_root.
Qed.

End ControllerRefreshProperties.

(** X18.  [refresh()] of the controller refreshes every page, in order,
    and returns normally.  It only computes geometry: with the computed
    dimensions and the group positions erased, the pages are the pages
    it was given; their number and the visibility of each are kept, so
    the current page stays current and alone visible.  It prints one
    warning for each child declaring [align = center] below the pages,
    and changes nothing else of the controller. *)
Theorem controller_refresh_keeps_pages :
  forall (num : Type) (N : Number num)
         (resolveDimensions : Element num -> option num -> option num -> Dimensions num)
         (this : VRUI num),
    exists this',
      VRUI_refresh resolveDimensions this = (Normal tt, this')
      /\ untouched this this'
      /\ pageGroup this' = pageGroup this
      /\ extends this this'
      /\ map declared (pages this') = map declared (pages this)
      /\ console this'
         = console this ++ repeat center_warning (list_sum (map centered (pages this)))
      /\ forall i, current_page this i -> current_page this' i.
Proof.
  intros num N R this. eexists. split; [apply VRUI_refresh_eq|].
  pose proof (extends_refresh R this) as He. rewrite VRUI_refresh_eq in He.
  cbn [snd] in He.
  split; [unfold untouched; repeat split; reflexivity|].
  split; [reflexivity|]. split; [exact He|]. split; [|split].
  - cbn [pages set_console set_pages]. apply nth_error_ext. intros j.
    rewrite !nth_error_map, refresh_pages_nth.
    destruct (nth_error (pages this) j) as [p|]; [|reflexivity].
    cbn. f_equal. apply declared_refresh.
  - cbn [console set_console]. rewrite refresh_pages_warnings. reflexivity.
  - intros i Hc. apply (extends_current He Hc).
Qed.

(** ** Sequences of calls *)

Section CallProperties.
Context {num : Type} {N : Number num}.
Variable resolveDimensions :
  Element num -> option num -> option num -> Dimensions num.

Lemma extends_length (a b : VRUI num) :
  extends a b -> length (pages a) <= length (pages b).
Proof. intros H. apply H. Qed.


End CallProperties.



(** ** VRUI.update, further *)

Section PointerProperties.
Context {num : Type} {N : Number num}.

Lemma pointed_refl (this : VRUI num) : pointed this this.
Proof. unfold pointed. repeat split; reflexivity. Qed.

Lemma currPage_intersect_pointed (this : VRUI num) :
  pointed this (snd (currPage_intersect this)).
Proof.
  unfold currPage_intersect, bind, get.
  destruct (currPage this) as [i|] eqn:Hc; [|apply pointed_refl].
  destruct (nth_error (pages this) i) as [page|]; [|apply pointed_refl].
  destruct (_intersect (_raycaster this) (_state_pressed this) page) as [[hit page'] evs].
  unfold update_page, modify, ret. cbn [snd].
  unfold pointed. cbn. rewrite length_update_nth.
  repeat split; try reflexivity; try assumption.
  intros j Hj. rewrite nth_error_update_nth.
  destruct (Nat.eqb_spec j i) as [Heq|_]; [|reflexivity].
  exfalso. apply Hj. rewrite Hc, Heq. reflexivity.
Qed.

Lemma update_pointed (this : VRUI num) : pointed this (snd (update this)).
Proof.
  unfold update, bind, get.
  destruct (negb (enabled this)); [apply pointed_refl|].
  destruct (_update this).
  - unfold _updateVR, bind, get.
    destruct (inputObject this) as [input|]; [|apply pointed_refl].
    destruct (userData_vrui_pressed input) as [pressed|]; [|apply pointed_refl].
    unfold modify.
    pose proof (currPage_intersect_pointed
                  (set_raycaster (matrixWorld input)
                     (set_state_pressed (pressed || _forcePressed this) this))) as H.
    exact H.
  - unfold _updateMouse, bind, get.
    destruct (m_camera (_mouse this)) as [cam|]; [|apply pointed_refl].
    unfold modify.
    pose proof (currPage_intersect_pointed
                  (set_raycaster (setFromCamera cam) this)) as H.
    exact H.
Qed.

End PointerProperties.

(** X20.  [update()], in either mode and whether it returns or throws,
    changes at most the ray, the press state, the events and the
    contents of the current page: the number of pages, every other page,
    the page group, [_pageId], [currPage], the mouse, the forced press,
    the update function, the input object, the mode and the console are
    as before.  On a disabled controller it changes nothing at all and
    answers null. *)
Theorem update_only_touches_current_page :
  forall (num : Type) (N : Number num) (this : VRUI num),
    pointed this (snd (update this))
    /\ (enabled this = false -> update this = (Normal None, this)).
Proof.
  intros num N this. split; [apply update_pointed|].
  intros He. unfold update, bind, get. rewrite He. reflexivity.
Qed.

(** ** The mouse and the tracked device *)

Section MouseProperties.
Context {num : Type} {N : Number num}.
Variable resolveDimensions :
  Element num -> option num -> option num -> Dimensions num.






End MouseProperties.



(** X22.  In tracked-device mode, [setPressed( trigger )] then
    [update()] leaves the press state at [pressed || trigger], [pressed]
    being the flag of the input object, and the ray at the one of the
    input object, whether [update] returns or throws for want of a
    current page.  In mouse mode, [setPressed] only warns: the forced
    press and the press state are as before, also after [update]. *)
Theorem forced_press_reaches_update :
  forall (num : Type) (N : Number num) (this : VRUI num) (trigger : bool),
    enabled this = true ->
    mouse_consistent this ->
    let this' := snd ((setPressed trigger ;;; update) this) in
    (forall input pressed,
        _update this = UpdateVR ->
        inputObject this = Some input ->
        userData_vrui_pressed input = Some pressed ->
        _forcePressed this' = trigger
        /\ _state_pressed this' = pressed || trigger
        /\ _raycaster this' = matrixWorld input
        /\ console this' = console this)
    /\ (_update this = UpdateMouse ->
        _forcePressed this' = _forcePressed this
        /\ _state_pressed this' = _state_pressed this
        /\ console this' = console this ++ [pressed_warning]).
Proof.
  intros num N this trigger He Hm this'. unfold mouse_consistent in Hm.
  assert (Hray : forall c : VRUI num,
             _state_pressed (snd (currPage_intersect c)) = _state_pressed c
             /\ _raycaster (snd (currPage_intersect c)) = _raycaster c).
  { intros c. unfold currPage_intersect, bind, get.
    destruct (currPage c) as [i|]; [|split; reflexivity].
    destruct (nth_error (pages c) i) as [page|]; [|split; reflexivity].
    destruct (_intersect (_raycaster c) (_state_pressed c) page) as [[hit page'] evs].
    split; reflexivity. }
  split.
  - intros input pressed Hu Hi Hp. rewrite Hu in Hm. destruct Hm as (Hen & _).
    assert (Hrun : this'
                   = snd (currPage_intersect
                            (set_raycaster (matrixWorld input)
                               (set_state_pressed (pressed || trigger)
                                  (set_forcePressed trigger this))))).
    { subst this'. unfold bind at 1, setPressed, bind, get. rewrite Hen.
      unfold modify at 1. unfold update, bind, get.
      cbn [enabled set_forcePressed _update].
      rewrite He, Hu. cbn [negb]. unfold _updateVR, bind, get.
      cbn [inputObject set_forcePressed _forcePressed]. rewrite Hi, Hp. reflexivity. }
    rewrite Hrun.
    pose proof (currPage_intersect_pointed
                  (set_raycaster (matrixWorld input)
                     (set_state_pressed (pressed || trigger)
                        (set_forcePressed trigger this)))) as H.
    unfold pointed in H.
    destruct H as (_ & _ & _ & _ & _ & _ & _ & _ & _ & _ & Hf & _ & Hcons & _).
    split; [rewrite Hf; reflexivity|].
    split; [rewrite (proj1 (Hray _)); reflexivity|].
    split; [rewrite (proj2 (Hray _)); reflexivity | rewrite Hcons; reflexivity].
  - intros Hu. rewrite Hu in Hm. destruct Hm as (Hen & Hcam & _).
    destruct (m_camera (_mouse this)) as [cam|] eqn:Hc; [|contradiction].
    assert (Hrun : this'
                   = snd (currPage_intersect
                            (set_raycaster (setFromCamera cam)
                               (set_console (console this ++ [pressed_warning]) this)))).
    { subst this'. unfold bind at 1, setPressed, bind, get. rewrite Hen.
      unfold warn, modify at 1. unfold update, bind, get.
      cbn [enabled set_console _update].
      rewrite He, Hu. cbn [negb]. unfold _updateMouse, bind, get.
      cbn [_mouse set_console]. rewrite Hc. reflexivity. }
    rewrite Hrun.
    pose proof (currPage_intersect_pointed
                  (set_raycaster (setFromCamera cam)
                     (set_console (console this ++ [pressed_warning]) this))) as H.
    unfold pointed in H.
    destruct H as (_ & _ & _ & _ & _ & _ & _ & _ & _ & _ & Hf & _ & Hcons & _).
    split; [rewrite Hf; reflexivity|].
    split; [rewrite (proj1 (Hray _)); reflexivity | rewrite Hcons; reflexivity].
Qed.

(** The trigger of the device is released and the press is forced. *)
Lemma forced_press_reaches_update_witness :
  _state_pressed (snd ((setPressed true ;;; update) tracked_controller)) = true.
Proof.
  apply (proj1 (@forced_press_reaches_update float float_Number tracked_controller
                  true eq_refl (conj eq_refl eq_refl))
           (mkInputObject (Some false) [1]) false eq_refl eq_refl eq_refl).
Defined.

(** ** The page group *)

Section SceneProperties.
Context {num : Type} {N : Number num}.
Variable resolveDimensions :
  Element num -> option num -> option num -> Dimensions num.


Lemma in_update_nth {A : Type} (g : A -> A) (i : nat) (l : list A) (b : A) :
  In b (update_nth i g l) -> exists a, In a l /\ (b = a \/ b = g a).
Proof.
  revert i. induction l as [|a l IH]; intros i H; [destruct i; destruct H|].
  destruct i as [|i]; cbn [update_nth] in H.
  - destruct H as [Hb|H];
      [exists a; split; [left; reflexivity | right; symmetry; exact Hb]|].
    exists b. split; [right; exact H | left; reflexivity].
  - destruct H as [Hb|H];
      [exists a; split; [left; reflexivity | left; symmetry; exact Hb]|].
    destruct (IH i H) as (a' & Hin & Hb). exists a'. split; [right; exact Hin | exact Hb].
Qed.








End SceneProperties.



(** ** VerticalLayout.refresh, twice *)

Section RefreshTwiceProperties.
Context {num : Type} {N : Number num}.
Variable resolveDimensions :
  Element num -> option num -> option num -> Dimensions num.
Hypothesis resolve_declared :
  forall (e e' : Element num) (mw mh : option num),
    declared e = declared e' ->
    resolveDimensions e mw mh = resolveDimensions e' mw mh.

Lemma declared_moved (x y : num) (e : Element num) :
  declared (moved x y e) = declared e.
Proof. destruct e. reflexivity. Qed.

Lemma moved_positions (e : Element num) :
  moved (position_x (group e)) (position_y (group e)) e = e.
Proof. destruct e as [ty id st dims pd par [g gp gc x y vis] h bg en ex elts]. reflexivity. Qed.

Lemma refresh_view (mw mh : option num) (e : Element num) :
  type e = ElementView ->
  refresh resolveDimensions mw mh e
  = (set_dimensions (resolveDimensions e mw mh) e, []).
Proof.
  destruct e as [ty id st dims pd par g h bg en ex elts]. cbn [type].
  intros ->. reflexivity.
Qed.

Lemma refresh_moved (x y : num) (mw mh : option num) (e : Element num) :
  refresh resolveDimensions mw mh (moved x y e)
  = (moved x y (fst (refresh resolveDimensions mw mh e)),
     snd (refresh resolveDimensions mw mh e)).
Proof.
  pose proof (resolve_declared (moved x y e) e mw mh (declared_moved x y e)) as Hd.
  destruct (type e) eqn:Hty.
  - rewrite (refresh_layout resolveDimensions mw mh e Hty).
    rewrite (refresh_layout resolveDimensions mw mh (moved x y e)) by exact Hty.
    cbv zeta. rewrite Hd. cbn [fst snd].
    destruct e as [ty id st dims pd par g h bg en ex elts]. reflexivity.
  - rewrite (refresh_view mw mh e Hty).
    rewrite (refresh_view mw mh (moved x y e)) by exact Hty.
    rewrite Hd. cbn [fst snd].
    destruct e as [ty id st dims pd par g h bg en ex elts]. reflexivity.
Qed.

(** What the loop body leaves of a child is the child moved. *)
Lemma placed_is_moved (d : Dimensions num) (w : num) (c : Element num)
    (off : Offset num) :
  exists x y, place_position w (fst (fst (place_align d c off))) = moved x y c.
Proof.
  exists (position_x (group (place_position w (fst (fst (place_align d c off)))))),
         (position_y (group (place_position w (fst (fst (place_align d c off)))))).
  destruct c as [ty id [sw sh al po] dims pd par [g gp gc x y vis] h bg en ex elts].
  destruct al, po; reflexivity.
Qed.

(** Placing a placed child again, from the same offset, changes
    nothing. *)
Lemma place_twice (d : Dimensions num) (w : num) (c : Element num) (off : Offset num) :
  let c3 := place_position w (fst (fst (place_align d c off))) in
  place_position w (fst (fst (place_align d c3 off))) = c3
  /\ snd (fst (place_align d c3 off)) = snd (fst (place_align d c off))
  /\ snd (place_align d c3 off) = snd (place_align d c off).
Proof.
  destruct c as [ty id [sw sh al po] dims pd par [g gp gc x y vis] h bg en ex elts].
  destruct al, po; repeat split; reflexivity.
Qed.

Lemma refresh_elements_twice
    (rf : Element num -> Element num * list string) (d : Dimensions num) (w : num)
    (elts : list (Element num)) :
  (forall c x y, In c elts ->
                 rf (moved x y (fst (rf c))) = (moved x y (fst (rf c)), snd (rf c))) ->
  forall off,
    refresh_elements rf d w (fst (refresh_elements rf d w elts off)) off
    = refresh_elements rf d w elts off.
Proof.
  induction elts as [|c rest IH]; intros H off; [reflexivity|].
  cbn [refresh_elements].
  destruct (placed_is_moved d w (fst (rf c)) off) as (x & y & Hmoved).
  pose proof (H c x y (or_introl eq_refl)) as Hc.
  pose proof (place_twice d w (fst (rf c)) off) as Htwice. cbv zeta in Htwice.
  destruct (rf c) as [c1 w1] eqn:Hrf. cbn [fst snd] in *.
  destruct (place_align d c1 off) as [[c2 off'] w2] eqn:Hpa. cbn [fst snd] in *.
  specialize (IH (fun c0 x0 y0 Hin => H c0 x0 y0 (or_intror Hin)) off').
  destruct (refresh_elements rf d w rest off') as [rest' w3] eqn:Hrest.
  cbn [fst snd] in *. cbn [refresh_elements].
  rewrite Hmoved, Hc. rewrite <- Hmoved.
  destruct (place_align d (place_position w c2) off) as [[c2' off''] w2'].
  cbn [fst snd] in Htwice. destruct Htwice as (H1 & H2 & H3). subst off'' w2'.
  rewrite H1, IH. reflexivity.
Qed.

Lemma refresh_twice (mw mh : option num) (e : Element num) :
  refresh resolveDimensions mw mh (fst (refresh resolveDimensions mw mh e))
  = refresh resolveDimensions mw mh e.
Proof.
  revert mw mh. induction e as [e IH] using Element_tree_ind. intros mw mh.
  pose proof (resolve_declared _ _ mw mh (declared_refresh resolveDimensions mw mh e))
    as Hd.
  destruct (type e) eqn:Hty.
  - rewrite (refresh_layout resolveDimensions mw mh e Hty) in Hd |- *.
    cbv zeta in Hd |- *. cbn [fst] in Hd |- *.
    rewrite refresh_layout by exact Hty. cbv zeta. rewrite Hd.
    cbn [_elements set_elements].
    rewrite refresh_elements_twice.
    + destruct e as [ty id st dims pd par g h bg en ex elts]. reflexivity.
    + intros c x y Hin. rewrite refresh_moved. rewrite (IH c Hin). reflexivity.
  - rewrite (refresh_view mw mh e Hty) in Hd |- *. cbn [fst] in Hd |- *.
    rewrite refresh_view by exact Hty. rewrite Hd.
    destruct e as [ty id st dims pd par g h bg en ex elts]. reflexivity.
Qed.

End RefreshTwiceProperties.

(** X24.  [refresh] is idempotent when the dimensions of an element are
    resolved from what it declares (its style, its parent dimensions,
    its children as declared) and from the given maxima, not from the
    geometry computed before: refreshing a refreshed layout with the same
    maxima gives the same tree, positions and dimensions included, and
    the same warnings. *)
Theorem refresh_is_idempotent :
  forall (num : Type) (N : Number num)
         (resolveDimensions : Element num -> option num -> option num -> Dimensions num)
         (maxEltWidth maxEltHeight : option num) (this : Element num),
    (forall (e e' : Element num) (mw mh : option num),
        declared e = declared e' ->
        resolveDimensions e mw mh = resolveDimensions e' mw mh) ->
    refresh resolveDimensions maxEltWidth maxEltHeight
      (fst (refresh resolveDimensions maxEltWidth maxEltHeight this))
    = refresh resolveDimensions maxEltWidth maxEltHeight this.
Proof.
  intros num N R mw mh this Hres.
  pose proof (refresh_twice R Hres mw mh this) as H.
  exact H.
Qed.

(** The layout with the four alignments, its dimensions resolved from
    the declared styles. *)
Lemma refresh_is_idempotent_witness :
  refresh styleDimensions None None
    (fst (refresh styleDimensions None None mixed_layout))
  = refresh styleDimensions None None mixed_layout.
Proof.
  apply (@refresh_is_idempotent Q Q_Number styleDimensions None None mixed_layout).
  intros e e' mw mh H. unfold styleDimensions.
  assert (Hs : style e = style e').
  { rewrite <- (proj1 (proj2 (proj2 (declared_root e)))), H.
    apply (proj1 (proj2 (proj2 (declared_root e')))). }
  rewrite Hs. reflexivity.
Defined.
